(** * Generated Babel bindings for Python: structs, unions and their wire form

    [python_json.babelg.py] is a generator: for every struct and union of a
    Babel namespace it emits the text of a Python class with a constructor,
    [validate], one property (getter, setter, deleter) per field, [from_dict]
    and [to_dict].  This development embeds the classes it emits.  Each
    definition below is indexed by the type descriptor the generator reads
    and follows, statement by statement, the lines the generator emits.

    Conventions of the embedding:
    - a Python value is a term of [value]; an instance of a generated class
      carries its class name and its attributes;
    - the attributes [_f] and [__has_f] of a struct field [f] form one slot
      [(value, flag)] stored under the field's name;
    - a raised exception is the [Raise] outcome of [result];
    - the descriptor of a composite type lists [all_fields]: the generated
      class together with what it inherits from the classes of its super
      types is embedded as one flat class;
    - [lang.format_variable], [format_method] and [format_class] are taken to
      leave a name unchanged (names are Python identifiers already). *)

From Stdlib Require Import String List ZArith Bool Lia.
Import ListNotations.
Local Open Scope string_scope.
Local Open Scope list_scope.

Set Implicit Arguments.
#[local] Set Warnings "-register-all".

(* ================================================================== *)
(** ** Python values and exceptions *)

Inductive value : Type :=
| VNone
| VBool (b : bool)
| VInt (n : Z)
| VStr (s : string)
| VList (items : list value)
| VDict (items : list (string * value))
| VStruct (cls : string) (slots : list (string * (value * bool)))
| VUnion (cls : string) (tag : option string) (payloads : list (string * value)).

(** The exceptions of the generated code, told apart by their message. *)
Inductive exn : Type :=
| UnknownKey (key : value)              (* KeyError("Unknown key: %r" % key) *)
| MissingRequiredField (field : string) (* KeyError("missing required field 'f'") *)
| TagNotSet (tag : string)              (* KeyError("tag 'f' not set") *)
| UnionKeyCount (n : nat)               (* KeyError("Union can only have one key set not %d") *)
| KeyError (key : string)               (* d['k'] on a dict without k *)
| TypeError
| AttributeError
| NameError
| IndexError
| ValueError (reason : string).         (* raised by a validator *)

Inductive result (A : Type) : Type :=
| Ok (a : A)
| Raise (e : exn).
Arguments Raise {A} e.

Definition bind {A B} (m : result A) (k : A -> result B) : result B :=
  match m with
  | Ok a => k a
  | Raise e => Raise e
  end.

Declare Scope py_scope.
Delimit Scope py_scope with py.
Notation "x <- m ;; k" := (bind m (fun x => k))
  (at level 61, m at next level, right associativity) : py_scope.
Notation "m ;;; k" := (bind m (fun _ => k))
  (at level 61, right associativity) : py_scope.
Local Open Scope py_scope.

Definition succeeds {A} (m : result A) : bool :=
  match m with Ok _ => true | Raise _ => false end.

(** [v is None] *)
Definition is_None (v : value) : bool :=
  match v with VNone => true | _ => false end.

(** Association lists stand for Python dicts and attribute tables. *)
Fixpoint lookup {A} (k : string) (d : list (string * A)) : option A :=
  match d with
  | [] => None
  | (k', a) :: d' => if String.eqb k k' then Some a else lookup k d'
  end.

(** [d[k] = a]: replaces the entry of [k], or adds one. *)
Fixpoint store {A} (k : string) (a : A) (d : list (string * A)) : list (string * A) :=
  match d with
  | [] => [(k, a)]
  | (k', a') :: d' =>
      if String.eqb k k' then (k', a) :: d' else (k', a') :: store k a d'
  end.

Definition keys {A} (d : list (string * A)) : list string := map fst d.

Definition mem (k : string) (l : list string) : bool :=
  existsb (String.eqb k) l.

(** [isinstance(obj, dict)] *)
Definition is_dict (obj : value) : bool :=
  match obj with VDict _ => true | _ => false end.

(** The one-character strings of [s], as iterating a Python string yields. *)
Fixpoint chars (s : string) : list value :=
  match s with
  | EmptyString => []
  | String c s' => VStr (String c EmptyString) :: chars s'
  end.

(** [for key in obj]: the keys of a dict, the characters of a string, the
    items of a list; other values are not iterable. *)
Definition py_iter (obj : value) : result (list value) :=
  match obj with
  | VDict d => Ok (map VStr (keys d))
  | VStr s => Ok (chars s)
  | VList l => Ok l
  | _ => Raise TypeError
  end.

(** [key in cls.__fields], where [__fields] is a set of names: a list or a
    dict is not hashable; a string is found by equality; nothing else equals
    a name. *)
Definition in_fields (key : value) (names : list string) : result bool :=
  match key with
  | VStr s => Ok (mem s names)
  | VList _ | VDict _ => Raise TypeError
  | _ => Ok false
  end.

(** ['k' in obj] *)
Definition py_contains (k : string) (obj : value) : result bool :=
  match obj with
  | VDict d => Ok (mem k (keys d))
  | VStr s => Ok (match index 0 k s with Some _ => true | None => false end)
  | VList l => Ok (existsb (fun v => match v with VStr s => String.eqb s k | _ => false end) l)
  | _ => Raise TypeError
  end.

(** [obj['k']] *)
Definition py_getitem (obj : value) (k : string) : result value :=
  match obj with
  | VDict d => match lookup k d with Some v => Ok v | None => Raise (KeyError k) end
  | _ => Raise TypeError
  end.

(** [obj.get('k')] *)
Definition py_get (obj : value) (k : string) : result value :=
  match obj with
  | VDict d => match lookup k d with Some v => Ok v | None => Ok VNone end
  | _ => Raise AttributeError
  end.

(* ================================================================== *)
(** ** Type descriptors read by the generator *)

Inductive int_kind : Type := Int32 | Int64 | UInt32 | UInt64.

(** Descriptors of the primitive validators the claims need.  Floats,
    binaries, timestamps and lists are handled by the generator exactly like
    these (everything that is not composite) and are left out. *)
Inductive primitive : Type :=
| Integer (kind : int_kind) (min_value max_value : option Z)
| String_ (min_length max_length : option nat)
| Boolean
| Null.

(** A field of a struct: [Field(name, data_type, doc, optional, default)].
    [doc] and [nullable] are not read by the methods embedded here. *)
Record Field (T : Type) : Type := mkField {
  field_name : string;
  field_data_type : T;
  field_optional : bool;
  field_default : option value
}.

Definition field_has_default {T} (f : Field T) : bool :=
  match field_default f with Some _ => true | None => false end.

(** A field of a union: a [SymbolField] (tag only) or a [Field] with a
    payload type. *)
Inductive UnionField (T : Type) : Type :=
| SymbolField (name : string)
| TagField (name : string) (data_type : T).

Definition ufield_name {T} (f : UnionField T) : string :=
  match f with SymbolField _ n => n | TagField n _ => n end.

Inductive data_type : Type :=
| Primitive (p : primitive)
| Struct (name : string) (all_fields : list (Field data_type))
| Union (name : string) (all_fields : list (UnionField data_type)).

Definition is_composite_type (t : data_type) : bool :=
  match t with Primitive _ => false | _ => true end.

(** [lang.format_class(data_type.name)] *)
Definition class_name (t : data_type) : string :=
  match t with
  | Primitive _ => ""
  | Struct n _ => n
  | Union n _ => n
  end.

(** Modelled from the spec: [all_required_fields] and [all_optional_fields]
    of [babelapi.data_type.Struct], which is not part of the sources: the
    fields of [all_fields], in order, whose [optional] flag is off,
    respectively on. *)
Definition all_required_fields {T} (fields : list (Field T)) : list (Field T) :=
  filter (fun f => negb (field_optional f)) fields.

Definition all_optional_fields {T} (fields : list (Field T)) : list (Field T) :=
  filter (fun f => field_optional f) fields.

Definition field_names {T} (fields : list (Field T)) : list string :=
  map (@field_name T) fields.

(* ================================================================== *)
(** ** The runtime the generated module imports *)

(** [transformer.convert_from(validator, wire)] and
    [transformer.convert_to(validator, val)]: the transformer is an argument
    of every [from_dict] and [to_dict]; its class is not part of the
    sources. *)
Record Transformer : Type := mkTransformer {
  convert_from : primitive -> value -> result value;
  convert_to : primitive -> value -> result value
}.

(** A method of a generated class runs on [self] and yields its outcome
    together with [self] as the call leaves it. *)
Definition method (A : Type) : Type := value -> result A * value.

(** [x.m(...)] run for its effect on a local [x]. *)
Definition run_on {A} (m : method A) (x : value) : result value :=
  match m x with
  | (Ok _, x') => Ok x'
  | (Raise e, _) => Raise e
  end.

Fixpoint map_result {A B} (f : A -> result B) (l : list A) : result (list B) :=
  match l with
  | [] => Ok []
  | a :: l' => b <- f a ;; bs <- map_result f l' ;; Ok (b :: bs)
  end.

(** Bodies the generator emits as text are kept as statements where the
    statement's form matters. *)
Inductive stmt : Type :=
| Return (e : value)      (* return <e> *)
| Expr (e : value)        (* <e>     : evaluated, dropped *)
| RaiseStmt (e : exn).    (* raise <e> *)

(** The last statement of a function body: a body that ends without
    [return] returns [None]. *)
Definition exec_last (s : stmt) : result value :=
  match s with
  | Return v => Ok v
  | Expr _ => Ok VNone
  | RaiseStmt e => Raise e
  end.

Section Generated.

(** [dt.<Kind>(...).validate(val)] of the imported [babel_data_types]:
    raises, or accepts [val]. *)
Variable dt_validate : primitive -> value -> result unit.

(* ------------------------------------------------------------------ *)
(** *** Struct classes *)

(** [_generate_struct_class_init]: [self._f = None; self.__has_f = False]
    for every field. *)
Definition struct_init (name : string) (fields : list (Field data_type)) : value :=
  VStruct name (map (fun f => (field_name f, (VNone, false))) fields).

Definition slot_of (self : value) (f : string) : result (value * bool) :=
  match self with
  | VStruct _ slots =>
      match lookup f slots with Some s => Ok s | None => Raise AttributeError end
  | _ => Raise AttributeError
  end.

(** [self._f] *)
Definition get_value (self : value) (f : string) : result value :=
  s <- slot_of self f ;; Ok (fst s).

(** [self.__has_f] *)
Definition get_has (self : value) (f : string) : result bool :=
  s <- slot_of self f ;; Ok (snd s).

(** [self._f = v; self.__has_f = h] *)
Definition write_slot (self : value) (f : string) (s : value * bool) : value :=
  match self with
  | VStruct c slots => VStruct c (store f s slots)
  | _ => self
  end.

(** [_generate_struct_class_validate]:
    [return all([self.__has_f, ... for the required fields])] *)
Definition validate (fields : list (Field data_type)) : method bool :=
  fun self =>
    (flags <- map_result (fun f => get_has self (field_name f))
                         (all_required_fields fields) ;;
     Ok (forallb (fun b => b) flags),
     self).

(** [validate] of a union class: [return self.__tag is not None] *)
Definition union_validate : method bool :=
  fun self =>
    (match self with
     | VUnion _ tag _ => Ok (match tag with Some _ => true | None => false end)
     | _ => Raise AttributeError
     end,
     self).

(** [isinstance(val, <class of t>)] *)
Definition isinstance (val : value) (t : data_type) : bool :=
  match t, val with
  | Struct n _, VStruct c _ => String.eqb c n
  | Union n _, VUnion c _ _ => String.eqb c n
  | _, _ => false
  end.

(** [val.validate()], called by a setter on a value that passed
    [isinstance]; the setter drops what it returns. *)
Definition validate_of (t : data_type) (val : value) : result bool :=
  match t with
  | Struct _ fields => fst (validate fields val)
  | Union _ _ => fst (union_validate val)
  | Primitive _ => Raise AttributeError
  end.

(** The getter's [else] branch, [_generate_struct_class_properties]. *)
Definition getter_else (f : Field data_type) : stmt :=
  if field_optional f then
    match field_default f with
    | Some d => Expr d          (* emit_line(format_obj(field.default)) *)
    | None => Return VNone      (* emit_line('return None') *)
    end
  else RaiseStmt (MissingRequiredField (field_name f)).

(** [@property def f(self)] *)
Definition getter (f : Field data_type) : method value :=
  fun self =>
    (h <- get_has self (field_name f) ;;
     if h then get_value self (field_name f) else exec_last (getter_else f),
     self).

(** The check that opens a setter. *)
Definition setter_check (t : data_type) (val : value) : result unit :=
  match t with
  | Primitive p => dt_validate p val
  | _ =>
      if isinstance val t then validate_of t val ;;; Ok tt
      else Raise TypeError
  end.

(** [@f.setter def f(self, val)] *)
Definition setter (f : Field data_type) (val : value) : method unit :=
  fun self =>
    match setter_check (field_data_type f) val with
    | Ok _ => (Ok tt, write_slot self (field_name f) (val, true))
    | Raise e => (Raise e, self)
    end.

(** [@f.deleter def f(self, val)]: the function takes two parameters, [self]
    and [val]; [args] are the arguments after [self]. *)
Definition deleter (f : Field data_type) (args : list value) : method unit :=
  fun self =>
    match args with
    | [_] => (Ok tt, write_slot self (field_name f) (VNone, false))
    | _ => (Raise TypeError, self)
    end.

(** [del x.f]: the property calls its deleter with the instance alone. *)
Definition del_statement (f : Field data_type) : method unit :=
  deleter f [].

(* ------------------------------------------------------------------ *)
(** *** Union classes *)

(** [_generate_union_class_init]: [self._f = None] for every field with a
    payload, then [self.__tag = None]. *)
Definition payload_init (fields : list (UnionField data_type))
  : list (string * value) :=
  flat_map (fun f => match f with
                     | SymbolField _ _ => []
                     | TagField n _ => [(n, VNone)]
                     end) fields.

Definition union_init (name : string) (fields : list (UnionField data_type)) : value :=
  VUnion name None (payload_init fields).

(** [def is_f(self): return self.__tag == 'f'] *)
Definition is_tag (f : string) : method bool :=
  fun self =>
    (match self with
     | VUnion _ tag _ =>
         Ok (match tag with Some t => String.eqb t f | None => false end)
     | _ => Raise AttributeError
     end,
     self).

(** [self.__tag = 'f'] *)
Definition write_tag (self : value) (f : string) : value :=
  match self with
  | VUnion c _ ps => VUnion c (Some f) ps
  | _ => self
  end.

(** [self._f = val] *)
Definition write_payload (self : value) (f : string) (val : value) : value :=
  match self with
  | VUnion c t ps => VUnion c t (store f val ps)
  | _ => self
  end.

(** [self._f] *)
Definition read_payload (self : value) (f : string) : result value :=
  match self with
  | VUnion _ _ ps =>
      match lookup f ps with Some v => Ok v | None => Raise AttributeError end
  | _ => Raise AttributeError
  end.

(** [def set_f(self)] of a symbol field *)
Definition set_symbol (f : string) : method unit :=
  fun self => (Ok tt, write_tag self f).

(** [@property def f(self)] of a field with a payload *)
Definition union_getter (f : string) : method value :=
  fun self =>
    (a <- fst (is_tag f self) ;;
     if negb a then Raise (TagNotSet f) else read_payload self f,
     self).

(** [@f.setter def f(self, val)] of a field with a payload.  A union class
    has no validator attributes: the branch of a primitive payload reads
    [self.__f_data_type], which does not exist. *)
Definition union_setter (f : string) (t : data_type) (val : value) : method unit :=
  fun self =>
    let check :=
      match t with
      | Primitive _ => Raise AttributeError
      | _ => if isinstance val t then validate_of t val ;;; Ok tt
             else Raise TypeError
      end in
    match check with
    | Ok _ => (Ok tt, write_tag (write_payload self f val) f)
    | Raise e => (Raise e, self)
    end.

(* ------------------------------------------------------------------ *)
(** *** from_dict and to_dict, over the codecs of the nested classes *)

Section Codec.

Variable transformer : Transformer.

(** [C.from_dict(transformer, w)] and [v.to_dict(transformer)] of the class
    generated for a field's composite type. *)
Variable nested_from_dict : data_type -> value -> result value.
Variable nested_to_dict : data_type -> value -> result value.

(** [for key in obj: if key not in cls.__fields: raise KeyError(...)] *)
Fixpoint check_keys (names : list string) (ks : list value) : result unit :=
  match ks with
  | [] => Ok tt
  | key :: ks' =>
      known <- in_fields key names ;;
      if negb known then Raise (UnknownKey key) else check_keys names ks'
  end.

(** The lines [_generate_struct_class_from_dict] emits for one field; [x] is
    the instance under construction. *)
Definition from_dict_field (obj : value) (f : Field data_type) (x : value)
  : result value :=
  let n := field_name f in
  if field_optional f then
    match field_data_type f with
    | Primitive p =>
        (* x.f = transformer.convert_from(x.__f_data_type, obj.get('f')) *)
        w <- py_get obj n ;;
        v <- convert_from transformer p w ;;
        run_on (setter f v) x
    | _ =>
        (* if obj.get('f') is not None:
               x.f = C.from_dict(transformer, obj['f']) *)
        w <- py_get obj n ;;
        if is_None w then Ok x
        else w' <- py_getitem obj n ;;
             v <- nested_from_dict (field_data_type f) w' ;;
             run_on (setter f v) x
    end
  else
    (* if 'f' not in obj: raise KeyError("missing required field 'f'") *)
    present <- py_contains n obj ;;
    if negb present then Raise (MissingRequiredField n)
    else
      match field_data_type f with
      | Primitive p =>
          w <- py_getitem obj n ;;
          v <- convert_from transformer p w ;;
          run_on (setter f v) x
      | _ =>
          w <- py_getitem obj n ;;
          v <- nested_from_dict (field_data_type f) w ;;
          run_on (setter f v) x
      end.

Fixpoint from_dict_fields (obj : value) (fs : list (Field data_type)) (x : value)
  : result value :=
  match fs with
  | [] => Ok x
  | f :: fs' => x' <- from_dict_field obj f x ;; from_dict_fields obj fs' x'
  end.

(** [_generate_struct_class_from_dict] *)
Definition struct_from_dict (name : string) (fields : list (Field data_type))
  (obj : value) : result value :=
  ks <- py_iter obj ;;
  check_keys (field_names fields) ks ;;;
  from_dict_fields obj fields (struct_init name fields).

(** The wire form of one field of [self]:
    [self._f.to_dict(transformer)] or
    [transformer.convert_to(self.__f_data_type, self._f)]. *)
Definition to_dict_field (self : value) (f : Field data_type) : result value :=
  v <- get_value self (field_name f) ;;
  match field_data_type f with
  | Primitive p => convert_to transformer p v
  | _ => nested_to_dict (field_data_type f) v
  end.

(** [d = dict(f=..., ...)], one argument per field of
    [all_required_fields]: the fields of [fs] that are not optional, in
    order. *)
Fixpoint to_dict_required (self : value) (fs : list (Field data_type))
  : result (list (string * value)) :=
  match fs with
  | [] => Ok []
  | f :: fs' =>
      if field_optional f then to_dict_required self fs'
      else
        w <- to_dict_field self f ;;
        d <- to_dict_required self fs' ;;
        Ok ((field_name f, w) :: d)
  end.

(** [if self._f is not None: d['f'] = ...], once per field of
    [all_optional_fields]: the fields of [fs] that are optional, in order. *)
Fixpoint to_dict_optional (self : value) (fs : list (Field data_type))
  (d : list (string * value)) : result (list (string * value)) :=
  match fs with
  | [] => Ok d
  | f :: fs' =>
      if field_optional f then
        v <- get_value self (field_name f) ;;
        if is_None v then to_dict_optional self fs' d
        else w <- to_dict_field self f ;;
             to_dict_optional self fs' (store (field_name f) w d)
      else to_dict_optional self fs' d
  end.

(** [_generate_struct_class_to_dict] *)
Definition struct_to_dict (fields : list (Field data_type)) (self : value)
  : result value :=
  d <- to_dict_required self fields ;;
  d' <- to_dict_optional self fields d ;;
  Ok (VDict d').

(** ['f' == obj.keys()[0]] *)
Definition first_key_is (f : string) (obj : value) : result bool :=
  match obj with
  | VDict [] => Raise IndexError
  | VDict ((k, _) :: _) => Ok (String.eqb f k)
  | _ => Raise AttributeError
  end.

(** [obj == 'f'] *)
Definition eq_str (obj : value) (f : string) : bool :=
  match obj with VStr s => String.eqb s f | _ => false end.

(** [len(obj)] of a dict *)
Definition dict_len (obj : value) : nat :=
  match obj with VDict d => length d | _ => 0 end.

(** The [if] that [_generate_union_class_from_dict] emits for one field; [u]
    is the instance under construction.  No class is generated for a union
    with a primitive payload (the generator stops with "Only symbols and
    composite types for union fields"): the line of that branch names an
    undefined [self]. *)
Definition union_from_dict_field (obj : value) (f : UnionField data_type)
  (u : value) : result value :=
  match f with
  | SymbolField _ n =>
      (* if obj == 'f': u.set_f() *)
      if eq_str obj n then run_on (set_symbol n) u else Ok u
  | TagField n t =>
      (* if isinstance(obj, dict) and 'f' == obj.keys()[0]:
             u.f = C.from_dict(transformer, obj['f']) *)
      hit <- (if is_dict obj then first_key_is n obj else Ok false) ;;
      if hit then
        match t with
        | Primitive _ => Raise NameError
        | _ => w <- py_getitem obj n ;;
               v <- nested_from_dict t w ;;
               run_on (union_setter n t v) u
        end
      else Ok u
  end.

Fixpoint union_from_dict_fields (obj : value) (fs : list (UnionField data_type))
  (u : value) : result value :=
  match fs with
  | [] => Ok u
  | f :: fs' =>
      u' <- union_from_dict_field obj f u ;; union_from_dict_fields obj fs' u'
  end.

(** [_generate_union_class_from_dict] *)
Definition union_from_dict (name : string) (fields : list (UnionField data_type))
  (obj : value) : result value :=
  if is_dict obj && negb (Nat.eqb (dict_len obj) 1)
  then Raise (UnionKeyCount (dict_len obj))
  else union_from_dict_fields obj fields (union_init name fields).

(** [_generate_union_class_to_dict]: one [if self.is_f(): return ...] per
    field; a body that runs past the last of them returns [None]. *)
Fixpoint union_to_dict (fs : list (UnionField data_type)) (self : value)
  : result value :=
  match fs with
  | [] => Ok VNone
  | f :: fs' =>
      active <- fst (is_tag (ufield_name f) self) ;;
      if active then
        match f with
        | SymbolField _ n => Ok (VStr n)
        | TagField n (Primitive _) => Raise NameError
        | TagField n t =>
            (* return dict(f=self.f.to_dict(transformer)) *)
            v <- fst (union_getter n self) ;;
            w <- nested_to_dict t v ;;
            Ok (VDict [(n, w)])
        end
      else union_to_dict fs' self
  end.

End Codec.

(** [from_dict] of the class generated for [T]. *)
Fixpoint from_dict (transformer : Transformer) (T : data_type) (obj : value)
  {struct T} : result value :=
  match T with
  | Primitive _ => Raise NameError
  | Struct name fields =>
      struct_from_dict transformer (from_dict transformer) name fields obj
  | Union name fields =>
      union_from_dict (from_dict transformer) name fields obj
  end.

(** [to_dict] of the class generated for [T], called on [self].  A setter
    stores only instances of its field's class, so the method a call
    [self._f.to_dict(transformer)] reaches is that of the field's class;
    a value without the method ([None] in a slot never set) raises. *)
Fixpoint to_dict (transformer : Transformer) (T : data_type) (self : value)
  {struct T} : result value :=
  match T with
  | Primitive _ => Raise AttributeError
  | Struct name fields =>
      if isinstance self (Struct name fields)
      then struct_to_dict transformer (to_dict transformer) fields self
      else Raise AttributeError
  | Union name fields =>
      if isinstance self (Union name fields)
      then union_to_dict (to_dict transformer) fields self
      else Raise AttributeError
  end.

End Generated.

(* ================================================================== *)
(** ** Validators and a transformer to run the classes with *)

(** Modelled from the spec: the natural range of the four integer kinds
    ([babel_data_types] is not part of the sources). *)
Definition natural_range (k : int_kind) : Z * Z :=
  match k with
  | Int32 => (- 2 ^ 31, 2 ^ 31 - 1)
  | Int64 => (- 2 ^ 63, 2 ^ 63 - 1)
  | UInt32 => (0, 2 ^ 32 - 1)
  | UInt64 => (0, 2 ^ 64 - 1)
  end%Z.

Definition lower_bound (k : int_kind) (min_value : option Z) : Z :=
  match min_value with Some m => m | None => fst (natural_range k) end.

Definition upper_bound (k : int_kind) (max_value : option Z) : Z :=
  match max_value with Some m => m | None => snd (natural_range k) end.

Definition RangeError : exn := ValueError "not within range".
Definition TypeMismatch : exn := ValueError "not a valid value of the kind".

Definition within (lo hi : option nat) (n : nat) : bool :=
  match lo with Some l => Nat.leb l n | None => true end &&
  match hi with Some h => Nat.leb n h | None => true end.

(** Modelled from the spec: [check(value) -> value | fails] of a primitive
    validator (the validator classes of [babel_data_types] and
    [babelsdk.data_type] are not part of the sources; only their test is).
    An integer validator fails on a value that is not an integer
    and on an integer outside [[min_value, max_value]], the bounds defaulting
    to the kind's natural range; a string validator bounds the character
    count; a boolean validator accepts the two booleans, a null validator
    [None]. *)
Definition check (p : primitive) (v : value) : result value :=
  match p, v with
  | Integer k lo hi, VInt n =>
      if (lower_bound k lo <=? n)%Z && (n <=? upper_bound k hi)%Z
      then Ok v else Raise RangeError
  | String_ lo hi, VStr s =>
      if within lo hi (String.length s) then Ok v else Raise RangeError
  | Boolean, VBool _ => Ok v
  | Null, VNone => Ok v
  | _, _ => Raise TypeMismatch
  end.

(** Modelled from the spec: the validators' [validate] accepts what [check]
    accepts, and the transformer runs a value through the field's validator
    in both directions. *)
Definition spec_validate (p : primitive) (v : value) : result unit :=
  check p v ;;; Ok tt.

Definition spec_transformer : Transformer :=
  {| convert_from := check; convert_to := check |}.

(* ================================================================== *)
(** ** Instances and the operations of a struct class *)

(** Instances of the class of a struct: made by [__init__], changed by the
    setters and deleters, which keep one slot per field. *)
Definition instance_of (name : string) (fields : list (Field data_type))
  (self : value) : Prop :=
  exists slots, self = VStruct name slots /\ keys slots = field_names fields.

(** A slot that is not set holds [None]. *)
Definition unset_is_None (self : value) : Prop :=
  forall f v, slot_of self f = Ok (v, false) -> v = VNone.

(** [to_dict] as a method: it reads [self]. *)
Definition to_dict_method (tr : Transformer) (T : data_type) : method value :=
  fun self => (to_dict tr T self, self).

Inductive struct_op : Type :=
| OpGet (f : Field data_type)
| OpSet (f : Field data_type) (val : value)
| OpDeleter (f : Field data_type) (args : list value)
| OpValidate
| OpToDict (transformer : Transformer).

(** [self] after an operation of the class of [Struct name fields]. *)
Definition after (dv : primitive -> value -> result unit)
  (name : string) (fields : list (Field data_type))
  (o : struct_op) (self : value) : value :=
  match o with
  | OpGet f => snd (getter f self)
  | OpSet f val => snd (setter dv f val self)
  | OpDeleter f args => snd (deleter f args self)
  | OpValidate => snd (validate fields self)
  | OpToDict tr => snd (to_dict_method tr (Struct name fields) self)
  end.

(** [self.__has_f], as a flag: an instance without the attribute counts as
    not set. *)
Definition is_set (self : value) (f : string) : bool :=
  match get_has self f with Ok h => h | Raise _ => false end.

(* ================================================================== *)
(** ** Instances that encode and decode back *)

Section Settled.

Variable dv : primitive -> value -> result unit.
Variable rec : data_type -> value -> Prop.

(** The slot of field [f] holds [v] with flag [h]: a primitive field is set
    to a value its validator accepts, not [None] when the field is optional;
    a composite field is set to a settled instance, or, when optional, not
    set. *)
Definition slot_settled (f : Field data_type) (v : value) (h : bool) : Prop :=
  match field_data_type f with
  | Primitive p =>
      h = true /\ dv p v = Ok tt /\ (field_optional f = true -> v <> VNone)
  | _ =>
      if h then rec (field_data_type f) v
      else field_optional f = true /\ v = VNone
  end.

Fixpoint slots_settled (fs : list (Field data_type))
  (ss : list (string * (value * bool))) : Prop :=
  match fs, ss with
  | [], [] => True
  | f :: fs', (k, (v, h)) :: ss' =>
      k = field_name f /\ slot_settled f v h /\ slots_settled fs' ss'
  | _, _ => False
  end.

(** The active tag [g] is a field of the union, and the payloads are those
    of a fresh instance but for the payload of [g]. *)
Fixpoint tag_settled (all : list (UnionField data_type)) (g : string)
  (ps : list (string * value)) (fs : list (UnionField data_type)) : Prop :=
  match fs with
  | [] => False
  | SymbolField _ m :: fs' =>
      (m = g /\ ps = payload_init all) \/ (m <> g /\ tag_settled all g ps fs')
  | TagField m t :: fs' =>
      (m = g /\ is_composite_type t = true /\
       exists y, ps = store g y (payload_init all) /\ rec t y)
      \/ (m <> g /\ tag_settled all g ps fs')
  end.

End Settled.

(** [settled dv T x]: [x] is an instance of the class of [T] in which every
    required field is set, every optional primitive field is set and not
    [None], every stored primitive value passes its validator, and every
    stored instance is settled in turn; a union has an active tag among
    its fields and no payload left from another tag. *)
Fixpoint settled (dv : primitive -> value -> result unit) (T : data_type)
  (x : value) {struct T} : Prop :=
  match T with
  | Primitive _ => False
  | Struct n fields =>
      match x with
      | VStruct c slots => c = n /\ slots_settled dv (settled dv) fields slots
      | _ => False
      end
  | Union n fields =>
      match x with
      | VUnion c (Some g) ps =>
          c = n /\ tag_settled (settled dv) fields g ps fields
      | _ => False
      end
  end.

(** Field names are distinct within every composite type of [T]. *)
Fixpoint well_named (T : data_type) : Prop :=
  match T with
  | Primitive _ => True
  | Struct _ fields =>
      NoDup (field_names fields) /\
      (fix all (fs : list (Field data_type)) : Prop :=
         match fs with
         | [] => True
         | f :: fs' => well_named (field_data_type f) /\ all fs'
         end) fields
  | Union _ fields =>
      NoDup (map (@ufield_name data_type) fields) /\
      (fix all (fs : list (UnionField data_type)) : Prop :=
         match fs with
         | [] => True
         | SymbolField _ _ :: fs' => all fs'
         | TagField _ t :: fs' => well_named t /\ all fs'
         end) fields
  end.

(** The transformer gives back what it was given, on the values a validator
    accepts. *)
Definition faithful (dv : primitive -> value -> result unit)
  (tr : Transformer) : Prop :=
  forall p v, dv p v = Ok tt ->
    exists u, convert_to tr p v = Ok u /\ convert_from tr p u = Ok v.

(* ================================================================== *)
(** ** The types of the test suite *)

Definition QuotaInfo : data_type :=
  Struct "QuotaInfo"
    [mkField "quota" (Primitive (Integer UInt64 None None)) false None].

Definition UpdateParentRev : data_type :=
  Struct "UpdateParentRev"
    [mkField "parent_rev" (Primitive (String_ None None)) false None].

Definition WriteConflictPolicy_fields : list (UnionField data_type) :=
  [SymbolField _ "reject";
   SymbolField _ "overwrite";
   TagField "update_if_matching_parent_rev" UpdateParentRev].

Definition WriteConflictPolicy : data_type :=
  Union "WriteConflictPolicy" WriteConflictPolicy_fields.

Definition quota : Field data_type :=
  mkField "quota" (Primitive (Integer UInt64 None None)) false None.

(** A struct with one optional field that declares a default. *)
Definition limit : Field data_type :=
  mkField "limit" (Primitive (Integer UInt32 None None)) true (Some (VInt 10)).

Definition Paging : data_type := Struct "Paging" [limit].

(** A struct with one optional field of the null type. *)
Definition mark : Field data_type :=
  mkField "mark" (Primitive Null) true None.

Definition Marker : data_type := Struct "Marker" [mark].

(** A struct with a required primitive field and an optional composite
    one. *)
Definition account_id : Field data_type :=
  mkField "account_id" (Primitive (String_ None None)) false None.

Definition quota_info : Field data_type :=
  mkField "quota_info" QuotaInfo true None.

Definition AccountInfo : data_type :=
  Struct "AccountInfo" [account_id; quota_info].

(* ================================================================== *)
(** ** What a setter lets into a slot *)

(** The value [v] passes the check that opens the setter of [f]: the
    validator of a primitive field accepts it; it is an instance of the
    class of a composite field. *)
Definition accepted (dv : primitive -> value -> result unit)
  (f : Field data_type) (v : value) : Prop :=
  match field_data_type f with
  | Primitive p => dv p v = Ok tt
  | t => isinstance v t = true
  end.

(** Every slot of [self] that is set holds a value its setter lets in. *)
Definition slots_accepted (dv : primitive -> value -> result unit)
  (fields : list (Field data_type)) (self : value) : Prop :=
  forall f v, In f fields ->
    slot_of self (field_name f) = Ok (v, true) -> accepted dv f v.

(** The operation is one of the class of the fields: its property belongs
    to one of them. *)
Definition op_of (fields : list (Field data_type)) (o : struct_op) : Prop :=
  match o with
  | OpGet f | OpSet f _ | OpDeleter f _ => In f fields
  | OpValidate | OpToDict _ => True
  end.

(** Case analysis on the bindings and tests of an equation [H] between
    outcomes. *)
Ltac crunch H :=
  repeat match type of H with
         | bind ?m _ = _ =>
             let E := fresh "E" in
             destruct m eqn:E; cbn [bind] in H; [|discriminate H]
         | (if ?c then _ else _) = _ =>
             let E := fresh "E" in
             destruct c eqn:E; try discriminate H
         end.

(* ================================================================== *)
(** * Properties *)

(** ** Association lists *)

Lemma mem_In (k : string) (l : list string) : mem k l = true <-> In k l.
Proof.
  unfold mem. rewrite existsb_exists. split.
  - intros [x [Hin Heq]]. apply String.eqb_eq in Heq. now subst.
  - intros Hin. exists k. split; [assumption | apply String.eqb_refl].
Qed.

Lemma mem_false (k : string) (l : list string) : mem k l = false <-> ~ In k l.
Proof.
  rewrite <- mem_In. destruct (mem k l); split; intro H;
    try congruence; try (exfalso; now apply H).
Qed.

Lemma lookup_In_keys {A} (k : string) (d : list (string * A)) :
  In k (keys d) <-> exists a, lookup k d = Some a.
Proof.
  induction d as [|[k' a'] d IH]; simpl.
  - split; [tauto | intros [a Ha]; discriminate].
  - destruct (String.eqb k k') eqn:E.
    + apply String.eqb_eq in E. subst. split; eauto.
    + apply String.eqb_neq in E. rewrite <- IH. split.
      * intros [H | H]; [congruence | assumption].
      * auto.
Qed.

Lemma lookup_None_keys {A} (k : string) (d : list (string * A)) :
  lookup k d = None <-> ~ In k (keys d).
Proof.
  rewrite lookup_In_keys. destruct (lookup k d) as [a|]; split; intro H.
  - discriminate.
  - exfalso. apply H. eauto.
  - intros [a Ha]. discriminate.
  - reflexivity.
Qed.

Lemma lookup_store_same {A} (k : string) (a : A) (d : list (string * A)) :
  lookup k (store k a d) = Some a.
Proof.
  induction d as [|[k' a'] d IH]; simpl.
  - now rewrite String.eqb_refl.
  - destruct (String.eqb k k') eqn:E; simpl; rewrite E; auto.
Qed.

Lemma lookup_store_other {A} (k k' : string) (a : A) (d : list (string * A)) :
  k' <> k -> lookup k' (store k a d) = lookup k' d.
Proof.
  intros Hne. induction d as [|[k0 a0] d IH]; simpl.
  - apply String.eqb_neq in Hne. now rewrite Hne.
  - destruct (String.eqb k k0) eqn:E; simpl.
    + apply String.eqb_eq in E. subst k0.
      apply String.eqb_neq in Hne. now rewrite Hne.
    + destruct (String.eqb k' k0); auto.
Qed.

Lemma keys_store_In {A} (k : string) (a : A) (d : list (string * A)) :
  In k (keys d) -> keys (store k a d) = keys d.
Proof.
  induction d as [|[k' a'] d IH]; simpl; [tauto|].
  intros H. destruct (String.eqb k k') eqn:E; simpl; [reflexivity|].
  apply String.eqb_neq in E. f_equal. apply IH.
  destruct H; [congruence | assumption].
Qed.

Lemma In_keys_store {A} (k k' : string) (a : A) (d : list (string * A)) :
  In k' (keys (store k a d)) <-> k' = k \/ In k' (keys d).
Proof.
  rewrite !lookup_In_keys.
  destruct (String.eqb_spec k' k) as [->|Hne].
  - rewrite lookup_store_same. split; eauto.
  - rewrite lookup_store_other by assumption. split; [auto | intros [?|?]; [contradiction | assumption]].
Qed.

(** ** validate *)

Lemma slot_of_instance name fields self f :
  instance_of name fields self -> In f fields ->
  exists s, slot_of self (field_name f) = Ok s.
Proof.
  intros [slots [-> Hk]] Hin. simpl.
  assert (Hin' : In (field_name f) (keys slots)).
  { rewrite Hk. unfold field_names. now apply in_map. }
  apply lookup_In_keys in Hin'. destruct Hin' as [s ->]. eauto.
Qed.

Lemma map_result_flags self (fs : list (Field data_type)) :
  (forall f, In f fs -> exists s, slot_of self (field_name f) = Ok s) ->
  map_result (fun f => get_has self (field_name f)) fs
  = Ok (map (fun f => is_set self (field_name f)) fs).
Proof.
  induction fs as [|f fs IH]; simpl; intros H; [reflexivity|].
  destruct (H f (or_introl eq_refl)) as [s Hs].
  unfold is_set at 1. unfold get_has at 1 3. rewrite Hs. simpl.
  rewrite IH by (intros; apply H; now right). reflexivity.
Qed.

Lemma is_set_get_has self f :
  is_set self f = true <-> get_has self f = Ok true.
Proof.
  unfold is_set. destruct (get_has self f) as [[|]|e]; split; congruence.
Qed.



(** The example of the spec: a struct with the one required field [quota]
    is not valid until [quota] is set, and valid from then on. *)
Example validate_QuotaInfo :
  fst (validate [quota] (struct_init "QuotaInfo" [quota])) = Ok false /\
  fst (validate [quota]
         (snd (setter spec_validate quota (VInt 64000)
                 (struct_init "QuotaInfo" [quota])))) = Ok true.
Proof. split; reflexivity. Qed.

(** ** Integer validators *)

(** C10: an integer validator of any of the four kinds accepts every
    integer [n] with [min_value <= n <= max_value] and returns it unchanged,
    and fails with a range error on every integer outside these bounds; with
    its default bounds the unsigned 32-bit validator accepts 0 and
    4294967295 and rejects 4294967296 and -1. *)
Theorem C10_integer_check_range :
  (forall k lo hi n,
      (lower_bound k lo <= n <= upper_bound k hi)%Z ->
      check (Integer k lo hi) (VInt n) = Ok (VInt n)) /\
  (forall k lo hi n,
      (n < lower_bound k lo \/ upper_bound k hi < n)%Z ->
      check (Integer k lo hi) (VInt n) = Raise RangeError) /\
  check (Integer UInt32 None None) (VInt 0) = Ok (VInt 0) /\
  check (Integer UInt32 None None) (VInt 4294967295) = Ok (VInt 4294967295) /\
  check (Integer UInt32 None None) (VInt 4294967296) = Raise RangeError /\
  check (Integer UInt32 None None) (VInt (-1)) = Raise RangeError.
Proof.
  split; [|split].
  - intros k lo hi n [Hlo Hhi]. unfold check.
    apply Z.leb_le in Hlo. apply Z.leb_le in Hhi.
    now rewrite Hlo, Hhi.
  - intros k lo hi n H. unfold check.
    destruct H as [H | H].
    + apply Z.leb_gt in H. now rewrite H.
    + apply Z.leb_gt in H. rewrite H. now rewrite andb_false_r.
  - repeat split; reflexivity.
Qed.

Lemma C10_witness :
  (lower_bound Int64 (Some 1%Z) <= 42 <= upper_bound Int64 None)%Z /\
  check (Integer Int64 (Some 1%Z) None) (VInt 42) = Ok (VInt 42) /\
  (0 < lower_bound Int64 (Some 1%Z)
   \/ upper_bound Int64 None < 0)%Z /\
  check (Integer Int64 (Some 1%Z) None) (VInt 0) = Raise RangeError.
Proof.
  assert (H1 : (lower_bound Int64 (Some 1%Z) <= 42
                <= upper_bound Int64 None)%Z)
    by (vm_compute; split; discriminate).
  assert (H2 : (0 < lower_bound Int64 (Some 1%Z)
                \/ upper_bound Int64 None < 0)%Z)
    by (left; reflexivity).
  split; [exact H1|]. split.
  - exact (proj1 C10_integer_check_range Int64 (Some 1%Z) None 42%Z H1).
  - split; [exact H2|].
    exact (proj1 (proj2 C10_integer_check_range) Int64 (Some 1%Z) None 0%Z H2).
Defined.

(** The expectations of [test_int]. *)
Example test_int :
  check (Integer Int32 None None) (VInt 42) = Ok (VInt 42) /\
  check (Integer Int32 None None) (VInt (2 ^ 31)) = Raise RangeError /\
  check (Integer Int32 None None) (VInt (- 2 ^ 31 - 1)) = Raise RangeError /\
  check (Integer UInt32 None None) (VInt (2 ^ 32)) = Raise RangeError /\
  check (Integer UInt32 None None) (VInt (-1)) = Raise RangeError /\
  check (Integer Int64 None None) (VInt (2 ^ 63)) = Raise RangeError /\
  check (Integer Int64 None None) (VInt (- 2 ^ 63 - 1)) = Raise RangeError /\
  check (Integer UInt64 None None) (VInt (2 ^ 64)) = Raise RangeError /\
  check (Integer UInt64 None None) (VInt (-1)) = Raise RangeError.
Proof. repeat split; reflexivity. Qed.

(** ** Getters *)

Lemma getter_set (f : Field data_type) self v :
  slot_of self (field_name f) = Ok (v, true) ->
  getter f self = (Ok v, self).
Proof.
  intros H. unfold getter, get_has, get_value. rewrite H. reflexivity.
Qed.

(** Reading a slot that is not set: a required field raises, an optional
    field yields [None], with or without a declared default. *)
Lemma getter_unset (f : Field data_type) self v :
  slot_of self (field_name f) = Ok (v, false) ->
  getter f self =
  (if field_optional f then Ok VNone
   else Raise (MissingRequiredField (field_name f)), self).
Proof.
  intros H. unfold getter, get_has, getter_else. rewrite H. simpl.
  destruct (field_optional f); [|reflexivity].
  destruct (field_default f); reflexivity.
Qed.

(** C4, at the failing input: [limit] is optional and declares the default
    10; read on a fresh instance, where its slot is not set, it yields
    [None] and not 10: the line emitted for the default is the bare literal,
    without [return]. *)
Theorem C4_getter_unset_default_yields_None :
  field_optional limit = true /\
  field_default limit = Some (VInt 10) /\
  get_has (struct_init "Paging" [limit]) "limit" = Ok false /\
  getter_else limit = Expr (VInt 10) /\
  fst (getter limit (struct_init "Paging" [limit])) = Ok VNone.
Proof. repeat split; reflexivity. Qed.

(** ** Slots of a struct instance *)

Lemma is_set_write c slots f s g :
  is_set (VStruct c (store f s slots)) g
  = if String.eqb g f then snd s else is_set (VStruct c slots) g.
Proof.
  unfold is_set, get_has, slot_of.
  destruct (String.eqb_spec g f) as [->|Hne].
  - now rewrite lookup_store_same.
  - now rewrite lookup_store_other.
Qed.

Lemma is_set_struct_only self g : is_set self g = true -> exists c slots, self = VStruct c slots.
Proof.
  unfold is_set, get_has, slot_of. destruct self; simpl; try discriminate. eauto.
Qed.

Lemma struct_init_unset name fields g : is_set (struct_init name fields) g = false.
Proof.
  unfold is_set, get_has, slot_of, struct_init.
  induction fields as [|f fs IH]; simpl; [reflexivity|].
  destruct (String.eqb g (field_name f)); simpl; [reflexivity | exact IH].
Qed.

(** [__init__] makes an instance of the class, and writing the slot of one
    of its fields keeps it one. *)
Lemma instance_of_init name fields : instance_of name fields (struct_init name fields).
Proof.
  eexists. split; [reflexivity|]. unfold keys, field_names.
  rewrite map_map. reflexivity.
Qed.

Lemma instance_of_write name fields self (f : Field data_type) s :
  instance_of name fields self -> In f fields ->
  instance_of name fields (write_slot self (field_name f) s).
Proof.
  intros [slots [-> Hk]] Hin. eexists. split; [reflexivity|].
  rewrite keys_store_In; [exact Hk|].
  rewrite Hk. unfold field_names. now apply in_map.
Qed.




(** [del x.f] itself calls the deleter one argument short: it raises and
    leaves the instance as it was. *)
Lemma del_statement_raises f self :
  del_statement f self = (Raise TypeError, self).
Proof. reflexivity. Qed.

(** ** Tags of a union instance *)

Lemma is_tag_union c tag ps f :
  fst (is_tag f (VUnion c tag ps))
  = Ok (match tag with Some t => String.eqb t f | None => false end).
Proof. reflexivity. Qed.



(** ** Decoding a union *)

(** A wire object with no key or with more than one is refused. *)
Lemma union_from_dict_key_count dv tr name fields d :
  length d <> 1 ->
  from_dict dv tr (Union name fields) (VDict d) = Raise (UnionKeyCount (length d)).
Proof.
  intros H. simpl. unfold union_from_dict. simpl.
  apply Nat.eqb_neq in H. now rewrite H.
Qed.

(** C8, at the failing inputs: a bare string that names no symbol field and
    a wire object whose one key names no field are both decoded, without an
    error, into an instance with no tag, which [validate()] finds not
    valid. *)
Theorem C8_union_from_dict_unrecognized :
  forall dv tr,
    from_dict dv tr WriteConflictPolicy (VStr "bogus")
    = Ok (union_init "WriteConflictPolicy" WriteConflictPolicy_fields) /\
    from_dict dv tr WriteConflictPolicy (VDict [("bogus", VDict [])])
    = Ok (union_init "WriteConflictPolicy" WriteConflictPolicy_fields) /\
    fst (union_validate (union_init "WriteConflictPolicy" WriteConflictPolicy_fields))
    = Ok false.
Proof. intros dv tr. repeat split; reflexivity. Qed.

(** ** Decoding a struct: optional fields *)

(** C3, at the failing input: [limit] is an optional field of a primitive
    type; decoding the empty wire object, from which its key is absent,
    calls its setter all the same: whatever the validators and the
    transformer, either the decoding raises or the slot of [limit] is set in
    the instance it returns. *)
Theorem C3_absent_optional_primitive_is_set :
  forall dv tr,
    match from_dict dv tr Paging (VDict []) with
    | Ok x => is_set x "limit" = true
    | Raise _ => True
    end.
Proof.
  intros dv tr. simpl. unfold struct_from_dict. simpl.
  unfold from_dict_field. simpl.
  destruct (convert_from tr (Integer UInt32 None None) VNone) as [v|e]; simpl; [|exact I].
  unfold run_on, setter. simpl.
  destruct (dv (Integer UInt32 None None) v); simpl; [reflexivity | exact I].
Qed.

(** With validators that refuse [None] for an integer the decoding of the
    empty object fails; with a field of the null type it returns an
    instance whose slot is set. *)
Example from_dict_absent_optional :
  from_dict spec_validate spec_transformer Paging (VDict []) = Raise TypeMismatch /\
  from_dict spec_validate spec_transformer Marker (VDict [])
  = Ok (VStruct "Marker" [("mark", (VNone, true))]).
Proof. split; reflexivity. Qed.

(** ** Decoding a struct: errors *)

Lemma check_keys_known names ks :
  (forall k, In k ks -> In k names) ->
  check_keys names (map VStr ks) = Ok tt.
Proof.
  induction ks as [|k ks IH]; simpl; intros H; [reflexivity|].
  assert (Hk : mem k names = true) by (apply mem_In, H; now left).
  rewrite Hk. simpl. apply IH. intros; apply H; now right.
Qed.

Lemma check_keys_unknown names ks :
  (exists k, In k ks /\ ~ In k names) ->
  exists k, In k ks /\ ~ In k names /\
            check_keys names (map VStr ks) = Raise (UnknownKey (VStr k)).
Proof.
  induction ks as [|k ks IH]; simpl; intros [k0 [Hin Hnot]]; [contradiction|].
  destruct (mem k names) eqn:Hk; simpl.
  - destruct IH as [k1 [H1 [H2 H3]]].
    + destruct Hin as [-> | Hin]; [|eauto].
      apply mem_In in Hk. contradiction.
    + exists k1. auto.
  - exists k. apply mem_false in Hk. auto.
Qed.

Section DecodeErrors.

Variable dv : primitive -> value -> result unit.
Variable tr : Transformer.
Variable nested : data_type -> value -> result value.

Lemma from_dict_fields_app obj pre post x :
  from_dict_fields dv tr nested obj (pre ++ post) x
  = (x' <- from_dict_fields dv tr nested obj pre x ;;
     from_dict_fields dv tr nested obj post x').
Proof.
  revert x. induction pre as [|f pre IH]; simpl; intros x; [reflexivity|].
  destruct (from_dict_field dv tr nested obj f x); simpl; [apply IH | reflexivity].
Qed.

Lemma from_dict_field_missing d f x :
  field_optional f = false -> ~ In (field_name f) (keys d) ->
  from_dict_field dv tr nested (VDict d) f x
  = Raise (MissingRequiredField (field_name f)).
Proof.
  intros Hopt Hnot. unfold from_dict_field. rewrite Hopt. simpl.
  apply mem_false in Hnot. now rewrite Hnot.
Qed.

Lemma from_dict_fields_missing d fs f x :
  In f fs -> field_optional f = false -> ~ In (field_name f) (keys d) ->
  exists e, from_dict_fields dv tr nested (VDict d) fs x = Raise e.
Proof.
  revert x. induction fs as [|g fs IH]; simpl; intros x Hin Hopt Hnot;
    [contradiction|].
  destruct Hin as [-> | Hin].
  - rewrite from_dict_field_missing by assumption. simpl. eauto.
  - destruct (from_dict_field dv tr nested (VDict d) g x); simpl; eauto.
Qed.

End DecodeErrors.

Lemma from_dict_Struct dv tr name fields obj :
  from_dict dv tr (Struct name fields) obj
  = struct_from_dict dv tr (from_dict dv tr) name fields obj.
Proof. reflexivity. Qed.

Lemma from_dict_Union dv tr name fields obj :
  from_dict dv tr (Union name fields) obj
  = union_from_dict (from_dict dv tr) name fields obj.
Proof. reflexivity. Qed.

(** C7, as the generated class has it: a wire object with a key that is no
    field name is refused with the unknown-key error, before anything else;
    a wire object from which the key of a required field is absent is always
    refused, and with the missing-required-field error of that field when
    every key is a field name and the fields declared before it decode. *)
Theorem C7_from_dict_errors :
  forall dv tr name fields d,
    ((exists k, In k (keys d) /\ ~ In k (field_names fields)) ->
     exists k, In k (keys d) /\ ~ In k (field_names fields) /\
       from_dict dv tr (Struct name fields) (VDict d)
       = Raise (UnknownKey (VStr k))) /\
    (forall f, In f fields -> field_optional f = false ->
               ~ In (field_name f) (keys d) ->
               exists e, from_dict dv tr (Struct name fields) (VDict d) = Raise e) /\
    (forall pre f post x,
        fields = pre ++ f :: post ->
        (forall k, In k (keys d) -> In k (field_names fields)) ->
        field_optional f = false ->
        ~ In (field_name f) (keys d) ->
        from_dict_fields dv tr (from_dict dv tr) (VDict d) pre
          (struct_init name fields) = Ok x ->
        from_dict dv tr (Struct name fields) (VDict d)
        = Raise (MissingRequiredField (field_name f))).
Proof.
  intros dv tr name fields d. rewrite from_dict_Struct.
  unfold struct_from_dict. simpl py_iter. cbn [bind].
  split; [|split].
  - intros H. destruct (check_keys_unknown (field_names fields) (keys d) H)
      as [k [H1 [H2 H3]]].
    exists k. rewrite H3. auto.
  - intros f Hin Hopt Hnot.
    destruct (check_keys (field_names fields) (map VStr (keys d))); simpl; [|eauto].
    eapply from_dict_fields_missing; eassumption.
  - intros pre f post x -> Hknown Hopt Hnot Hpre.
    rewrite check_keys_known by assumption. cbn [bind].
    rewrite from_dict_fields_app, Hpre. cbn [bind from_dict_fields].
    now rewrite from_dict_field_missing.
Qed.

Lemma C7_witness :
  (exists k, In k (keys [("bad_field", VStr "xyz123")]) /\
             ~ In k (field_names [quota])) /\
  (exists k, In k (keys [("bad_field", VStr "xyz123")]) /\
             ~ In k (field_names [quota]) /\
     from_dict spec_validate spec_transformer QuotaInfo
       (VDict [("bad_field", VStr "xyz123")]) = Raise (UnknownKey (VStr k))) /\
  (In quota [quota] /\ field_optional quota = false /\
   ~ In (field_name quota) (keys (@nil (string * value)))) /\
  (exists e, from_dict spec_validate spec_transformer QuotaInfo (VDict []) = Raise e) /\
  ([quota] = [] ++ quota :: [] /\
   (forall k, In k (keys (@nil (string * value))) -> In k (field_names [quota])) /\
   from_dict_fields spec_validate spec_transformer
     (from_dict spec_validate spec_transformer) (VDict []) []
     (struct_init "QuotaInfo" [quota]) = Ok (struct_init "QuotaInfo" [quota])) /\
  from_dict spec_validate spec_transformer QuotaInfo (VDict [])
  = Raise (MissingRequiredField "quota").
Proof.
  assert (Hbad : exists k, In k (keys [("bad_field", VStr "xyz123")]) /\
                           ~ In k (field_names [quota])).
  { exists "bad_field". split; [now left|].
    simpl. intros [H | []]. discriminate. }
  assert (Hnot : ~ In (field_name quota) (keys (@nil (string * value))))
    by (simpl; tauto).
  assert (Hkn : forall k, In k (keys (@nil (string * value))) ->
                          In k (field_names [quota]))
    by (simpl; tauto).
  split; [exact Hbad|]. split.
  - exact (proj1 (C7_from_dict_errors spec_validate spec_transformer
                    "QuotaInfo" [quota] [("bad_field", VStr "xyz123")]) Hbad).
  - split; [repeat split; [now left | exact Hnot]|]. split.
    + exact (proj1 (proj2 (C7_from_dict_errors spec_validate spec_transformer
                             "QuotaInfo" [quota] []))
                   quota (or_introl eq_refl) eq_refl Hnot).
    + split; [repeat split; exact Hkn|].
      exact (proj2 (proj2 (C7_from_dict_errors spec_validate spec_transformer
                             "QuotaInfo" [quota] []))
                   [] quota [] _ eq_refl Hkn eq_refl Hnot eq_refl).
Defined.

(** The key of the required [quota] is absent from this wire object, and
    the error is the unknown-key one, not the missing-required-field one. *)
Lemma C7_counterexample :
  ~ In "quota" (keys [("bad_field", VStr "xyz123")]) /\
  from_dict spec_validate spec_transformer QuotaInfo
    (VDict [("bad_field", VStr "xyz123")])
  = Raise (UnknownKey (VStr "bad_field")) /\
  from_dict spec_validate spec_transformer QuotaInfo
    (VDict [("bad_field", VStr "xyz123")])
  <> Raise (MissingRequiredField "quota").
Proof.
  split; [|split].
  - simpl. intros [H | []]. discriminate.
  - reflexivity.
  - discriminate.
Qed.

(** ** Encoding a struct: which keys are emitted *)

Lemma to_dict_Struct tr name fields self :
  to_dict tr (Struct name fields) self
  = if isinstance self (Struct name fields)
    then struct_to_dict tr (to_dict tr) fields self
    else Raise AttributeError.
Proof. reflexivity. Qed.

Lemma to_dict_Union tr name fields self :
  to_dict tr (Union name fields) self
  = if isinstance self (Union name fields)
    then union_to_dict (to_dict tr) fields self
    else Raise AttributeError.
Proof. reflexivity. Qed.

Section EncodeKeys.

Variable tr : Transformer.
Variable nested : data_type -> value -> result value.
Variable self : value.

(** The loop over the required fields visits [all_required_fields]. *)
Lemma to_dict_required_filter fs :
  to_dict_required tr nested self fs
  = to_dict_required tr nested self (all_required_fields fs).
Proof.
  induction fs as [|f fs IH]; simpl; [reflexivity|].
  destruct (field_optional f) eqn:E; simpl; [exact IH|].
  rewrite E. now rewrite IH.
Qed.

(** The loop over the optional fields visits [all_optional_fields]. *)
Lemma to_dict_optional_filter fs d :
  to_dict_optional tr nested self fs d
  = to_dict_optional tr nested self (all_optional_fields fs) d.
Proof.
  revert d. induction fs as [|f fs IH]; simpl; intros d; [reflexivity|].
  destruct (field_optional f) eqn:E; simpl; [|apply IH].
  rewrite E. destruct (get_value self (field_name f)) as [v|]; simpl; [|reflexivity].
  destruct (is_None v); [apply IH|].
  destruct (to_dict_field tr nested self f); simpl; [apply IH | reflexivity].
Qed.

Lemma to_dict_required_keys fs d :
  to_dict_required tr nested self fs = Ok d ->
  keys d = field_names (all_required_fields fs).
Proof.
  revert d. induction fs as [|f fs IH]; simpl; intros d H.
  - injection H as <-. reflexivity.
  - destruct (field_optional f); simpl; [now apply IH|].
    destruct (to_dict_field tr nested self f) as [w|]; simpl in H; [|discriminate].
    destruct (to_dict_required tr nested self fs) as [d0|]; simpl in H; [|discriminate].
    injection H as <-. simpl. f_equal. now apply IH.
Qed.

(** A key is in the dict after the loop over the optional fields when it was
    there before, or names an optional field whose stored value is not
    [None]. *)
Lemma to_dict_optional_keys fs d d' k :
  to_dict_optional tr nested self fs d = Ok d' ->
  (In k (keys d') <->
   In k (keys d) \/
   exists f v, In f fs /\ field_optional f = true /\ field_name f = k /\
               get_value self k = Ok v /\ is_None v = false).
Proof.
  revert d. induction fs as [|f fs IH]; simpl; intros d H.
  - injection H as <-. split; [auto|]. intros [H | [f [v [[] _]]]]. exact H.
  - destruct (field_optional f) eqn:Eopt.
    + destruct (get_value self (field_name f)) as [v|] eqn:Ev; simpl in H;
        [|discriminate].
      destruct (is_None v) eqn:En.
      * rewrite (IH _ H). split.
        -- intros [Hk | [g [u [Hg Hrest]]]]; [auto|]. right. exists g, u. tauto.
        -- intros [Hk | [g [u [[<- | Hg] [H1 [H2 [H3 H4]]]]]]]; [auto | |].
           ++ subst k. congruence.
           ++ right. exists g, u. tauto.
      * destruct (to_dict_field tr nested self f) as [w|]; simpl in H;
          [|discriminate].
        rewrite (IH _ H). rewrite In_keys_store. split.
        -- intros [[-> | Hk] | [g [u [Hg Hrest]]]].
           ++ right. exists f, v. tauto.
           ++ auto.
           ++ right. exists g, u. tauto.
        -- intros [Hk | [g [u [[<- | Hg] [H1 [H2 [H3 H4]]]]]]].
           ++ auto.
           ++ left. left. now subst k.
           ++ right. exists g, u. tauto.
    + rewrite (IH _ H). split.
      * intros [Hk | [g [u [Hg Hrest]]]]; [auto|]. right. exists g, u. tauto.
      * intros [Hk | [g [u [[<- | Hg] [H1 [H2 [H3 H4]]]]]]]; [auto | congruence |].
        right. exists g, u. tauto.
Qed.

Lemma to_dict_optional_reads fs d d' f :
  to_dict_optional tr nested self fs d = Ok d' ->
  In f fs -> field_optional f = true ->
  exists v, get_value self (field_name f) = Ok v.
Proof.
  revert d. induction fs as [|g fs IH]; simpl; intros d H Hin Hopt; [contradiction|].
  destruct Hin as [-> | Hin].
  - rewrite Hopt in H.
    destruct (get_value self (field_name f)) as [v|]; [eauto | discriminate].
  - destruct (field_optional g).
    + destruct (get_value self (field_name g)) as [v|]; simpl in H; [|discriminate].
      destruct (is_None v); [eauto|].
      destruct (to_dict_field tr nested self g); simpl in H; [eauto | discriminate].
    + eauto.
Qed.

End EncodeKeys.

Lemma NoDup_field_names_inj (fields : list (Field data_type)) f g :
  NoDup (field_names fields) -> In f fields -> In g fields ->
  field_name f = field_name g -> f = g.
Proof.
  induction fields as [|h fs IH]; simpl; intros Hnd Hf Hg Heq; [contradiction|].
  inversion Hnd as [|? ? Hnot Hnd']; subst.
  destruct Hf as [-> | Hf], Hg as [-> | Hg]; auto.
  - exfalso. apply Hnot. rewrite Heq. now apply in_map.
  - exfalso. apply Hnot. rewrite <- Heq. now apply in_map.
Qed.

(** The slots of an instance that only [__init__], setters and deleters
    have written: one that is not set holds [None]. *)
Lemma unset_is_None_init name fields : unset_is_None (struct_init name fields).
Proof.
  intros f v. unfold struct_init, slot_of.
  induction fields as [|g fs IH]; simpl; [discriminate|].
  destruct (String.eqb f (field_name g)); [congruence | exact IH].
Qed.

Lemma unset_is_None_write self f s :
  unset_is_None self -> (snd s = false -> fst s = VNone) ->
  unset_is_None (write_slot self f s).
Proof.
  intros H Hs g v. destruct self; cbn [write_slot]; try apply H.
  unfold slot_of. destruct (String.eqb_spec g f) as [->|Hne].
  - rewrite lookup_store_same. intros E. injection E as E. subst s. now apply Hs.
  - rewrite lookup_store_other by assumption. apply H.
Qed.

Lemma unset_is_None_step dv name fields o self :
  unset_is_None self -> unset_is_None (after dv name fields o self).
Proof.
  intros H. destruct o as [f | f val | f args | | tr]; simpl; try exact H.
  - unfold setter. destruct (setter_check dv (field_data_type f) val); simpl;
      [|exact H].
    apply unset_is_None_write; [exact H | discriminate].
  - unfold deleter. destruct args as [|a [|b args]]; simpl; try exact H.
    apply unset_is_None_write; [exact H | reflexivity].
Qed.

(** The keys of the object [to_dict] returns: the names of the required
    fields and of the optional fields whose stored value is not [None]. *)
Lemma to_dict_keys tr name fields self w :
  NoDup (field_names fields) ->
  to_dict tr (Struct name fields) self = Ok w ->
  exists d, w = VDict d /\
    forall f, In f fields ->
      (field_optional f = false -> mem (field_name f) (keys d) = true) /\
      (field_optional f = true ->
       exists v, get_value self (field_name f) = Ok v /\
                 mem (field_name f) (keys d) = negb (is_None v)).
Proof.
  intros Hnd H. rewrite to_dict_Struct in H.
  destruct (isinstance self (Struct name fields)); [|discriminate].
  unfold struct_to_dict in H.
  destruct (to_dict_required tr (to_dict tr) self fields) as [d0|] eqn:Hreq;
    simpl in H; [|discriminate].
  destruct (to_dict_optional tr (to_dict tr) self fields d0) as [d|] eqn:Hopt;
    simpl in H; [|discriminate].
  injection H as <-. exists d. split; [reflexivity|].
  pose proof Hreq as Hk0. apply to_dict_required_keys in Hk0.
  pose proof (fun k => to_dict_optional_keys _ _ _ _ _ k Hopt) as Hkeys.
  intros f Hin. split.
  - intros Hfopt. apply mem_In.
    rewrite (Hkeys (field_name f)). left.
    rewrite Hk0. unfold field_names. apply in_map. apply filter_In.
    split; [assumption | now rewrite Hfopt].
  - intros Hfopt.
    destruct (to_dict_optional_reads _ _ _ _ _ f Hopt Hin Hfopt) as [v Hv].
    exists v. split; [exact Hv|].
    destruct (is_None v) eqn:En; simpl.
    + apply mem_false. rewrite (Hkeys (field_name f)).
      intros [Hk | [g [u [Hg [H1 [H2 [H3 H4]]]]]]].
      * rewrite Hk0 in Hk. unfold field_names in Hk. apply in_map_iff in Hk.
        destruct Hk as [g [Hname Hg]]. apply filter_In in Hg. destruct Hg as [Hg Hgo].
        assert (g = f) by (eapply NoDup_field_names_inj; eassumption).
        subst g. rewrite Hfopt in Hgo. discriminate.
      * congruence.
    + apply mem_In. rewrite (Hkeys (field_name f)).
      right. exists f, v. auto.
Qed.

(** C2, as the generated class has it: when [to_dict] returns, the wire
    object has the key of every required field, and has the key of an
    optional field exactly when the value stored for the field is not
    [None]; on an instance whose unset slots hold [None], an optional field
    is therefore emitted only if its slot is set, an optional field whose
    slot is not set is left out of the object (there is no null entry for
    it). *)
Theorem C2_to_dict_emitted_keys :
  forall tr name fields self w,
    NoDup (field_names fields) ->
    to_dict tr (Struct name fields) self = Ok w ->
    exists d, w = VDict d /\
      forall f, In f fields ->
        (field_optional f = false -> mem (field_name f) (keys d) = true) /\
        (field_optional f = true ->
         exists v, get_value self (field_name f) = Ok v /\
                   mem (field_name f) (keys d) = negb (is_None v)) /\
        (field_optional f = true -> unset_is_None self ->
         (mem (field_name f) (keys d) = true -> is_set self (field_name f) = true) /\
         (is_set self (field_name f) = false ->
          py_get w (field_name f) = Ok VNone /\
          py_contains (field_name f) w = Ok false)).
Proof.
  intros tr name fields self w Hnd H.
  destruct (to_dict_keys tr name fields self Hnd H) as [d [-> Hall]].
  exists d. split; [reflexivity|].
  intros f Hin. destruct (Hall f Hin) as [Hreq Hemit].
  split; [exact Hreq|]. split; [exact Hemit|].
  intros Hfopt Hinv. destruct (Hemit Hfopt) as [v [Hv Hmem]].
  assert (Hun : is_set self (field_name f) = false -> is_None v = true).
  { intros Hu. unfold is_set, get_has in Hu. unfold get_value in Hv.
    destruct (slot_of self (field_name f)) as [[v' h]|] eqn:Hs; simpl in *;
      [|discriminate].
    injection Hv as ->. subst h. now rewrite (Hinv _ _ Hs). }
  split.
  - intros Hm. destruct (is_set self (field_name f)) eqn:Hs; [reflexivity|].
    rewrite (Hun eq_refl) in Hmem. simpl in Hmem. congruence.
  - intros Hu. rewrite (Hun Hu) in Hmem. simpl in Hmem. simpl.
    rewrite Hmem. split; [|reflexivity].
    apply mem_false in Hmem. apply lookup_None_keys in Hmem. now rewrite Hmem.
Qed.

Lemma C2_witness :
  let self := VStruct "AccountInfo"
                [("account_id", (VStr "xyz123", true));
                 ("quota_info", (VNone, false))] in
  let w := VDict [("account_id", VStr "xyz123")] in
  NoDup (field_names [account_id; quota_info]) /\
  to_dict spec_transformer AccountInfo self = Ok w /\
  In quota_info [account_id; quota_info] /\
  field_optional quota_info = true /\
  unset_is_None self /\
  is_set self "quota_info" = false /\
  py_get w "quota_info" = Ok VNone /\
  py_contains "quota_info" w = Ok false.
Proof.
  cbv zeta.
  assert (Hnd : NoDup (field_names [account_id; quota_info])).
  { repeat constructor; simpl; intuition discriminate. }
  assert (Hinv : unset_is_None
                   (VStruct "AccountInfo"
                      [("account_id", (VStr "xyz123", true));
                       ("quota_info", (VNone, false))])).
  { intros f v. unfold slot_of. simpl.
    destruct (String.eqb f "account_id"); [discriminate|].
    destruct (String.eqb f "quota_info"); [congruence | discriminate]. }
  assert (Hin : In quota_info [account_id; quota_info]) by (right; now left).
  split; [exact Hnd|]. split; [reflexivity|]. split; [exact Hin|].
  split; [reflexivity|]. split; [exact Hinv|]. split; [reflexivity|].
  destruct (C2_to_dict_emitted_keys spec_transformer "AccountInfo"
              [account_id; quota_info]
              (VStruct "AccountInfo"
                 [("account_id", (VStr "xyz123", true));
                  ("quota_info", (VNone, false))])
              Hnd eq_refl) as [d [Hd Hall]].
  subst. exact (proj2 (proj2 (proj2 (Hall quota_info Hin)) eq_refl Hinv) eq_refl).
Defined.

(** Set and not emitted: the slot of the optional [mark] is set (to [None],
    which its validator accepts), and [to_dict] leaves the field out. *)
Lemma C2_counterexample :
  field_optional mark = true /\
  setter spec_validate mark VNone (struct_init "Marker" [mark])
  = (Ok tt, VStruct "Marker" [("mark", (VNone, true))]) /\
  is_set (VStruct "Marker" [("mark", (VNone, true))]) "mark" = true /\
  to_dict spec_transformer Marker (VStruct "Marker" [("mark", (VNone, true))])
  = Ok (VDict []).
Proof. repeat split; reflexivity. Qed.

(** ** Encoding and decoding back *)

(** Induction over a type descriptor and the types of its fields. *)
Lemma data_type_induction (P : data_type -> Prop) :
  (forall p, P (Primitive p)) ->
  (forall n fs, Forall (fun f => P (field_data_type f)) fs -> P (Struct n fs)) ->
  (forall n fs,
      Forall (fun f => match f with
                       | SymbolField _ _ => True
                       | TagField _ t => P t
                       end) fs -> P (Union n fs)) ->
  forall T, P T.
Proof.
  intros HP HS HU.
  exact (fix IH (T : data_type) : P T :=
           match T with
           | Primitive p => HP p
           | Struct n fs =>
               HS n fs
                  ((fix all (l : list (Field data_type))
                    : Forall (fun f => P (field_data_type f)) l :=
                      match l with
                      | [] => Forall_nil _
                      | f :: l' => Forall_cons f (IH (field_data_type f)) (all l')
                      end) fs)
           | Union n fs =>
               HU n fs
                  ((fix all (l : list (UnionField data_type))
                    : Forall (fun f => match f with
                                       | SymbolField _ _ => True
                                       | TagField _ t => P t
                                       end) l :=
                      match l with
                      | [] => Forall_nil _
                      | f :: l' =>
                          Forall_cons f
                            (match f as f0
                                   return match f0 with
                                          | SymbolField _ _ => True
                                          | TagField _ t => P t
                                          end
                             with
                             | SymbolField _ _ => I
                             | TagField _ t => IH t
                             end) (all l')
                      end) fs)
           end).
Qed.

Lemma check_returns_argument p v u : check p v = Ok u -> u = v.
Proof.
  destruct p, v; simpl; try discriminate; intros H.
  - destruct (_ && _); [congruence | discriminate].
  - destruct (within _ _ _); [congruence | discriminate].
  - congruence.
  - congruence.
Qed.

Lemma spec_runtime_faithful : faithful spec_validate spec_transformer.
Proof.
  intros p v H. unfold spec_validate in H. simpl.
  destruct (check p v) as [u|] eqn:E; [|discriminate].
  pose proof (check_returns_argument _ _ E) as ->.
  exists v. split; [reflexivity | exact E].
Qed.

Lemma slots_settled_keys dv rec fs ss :
  slots_settled dv rec fs ss -> keys ss = field_names fs.
Proof.
  revert ss. induction fs as [|f fs IH]; intros [|[k [v h]] ss]; simpl;
    try tauto.
  intros [-> [_ H]]. f_equal. now apply IH.
Qed.

Lemma well_named_field n fs f :
  well_named (Struct n fs) -> In f fs -> well_named (field_data_type f).
Proof.
  intros [_ H] Hin. induction fs as [|g fs IH]; [contradiction|].
  destruct H as [Hg H]. destruct Hin as [-> | Hin]; auto.
Qed.

Lemma well_named_tag n fs m t :
  well_named (Union n fs) -> In (TagField m t) fs -> well_named t.
Proof.
  intros [_ H] Hin. induction fs as [|g fs IH]; [contradiction|].
  destruct Hin as [-> | Hin].
  - now destruct H.
  - destruct g; [auto | destruct H; auto].
Qed.

(** A settled value is an instance of the class of its type, and its
    [validate()] does not raise. *)
Lemma settled_instance dv T x :
  settled dv T x -> is_None x = false /\ isinstance x T = true.
Proof.
  destruct T as [p | n fs | n fs], x; simpl; try tauto.
  - intros [-> _]. split; [reflexivity | apply String.eqb_refl].
  - destruct tag; [|tauto]. intros [-> _].
    split; [reflexivity | apply String.eqb_refl].
Qed.

Lemma settled_validates dv T x :
  settled dv T x -> exists b, validate_of T x = Ok b.
Proof.
  destruct T as [p | n fs | n fs], x; simpl; try tauto.
  - intros [-> H]. apply slots_settled_keys in H.
    unfold validate. cbn [fst].
    rewrite map_result_flags; [simpl; eauto|].
    intros f Hf. apply filter_In in Hf.
    eapply slot_of_instance with (name := n) (fields := fs); [|tauto].
    eexists. split; [reflexivity | exact H].
  - destruct tag; [|tauto]. eauto.
Qed.

Lemma settled_setter_check dv T x :
  is_composite_type T = true -> settled dv T x -> setter_check dv T x = Ok tt.
Proof.
  intros Hc H. destruct (settled_instance _ _ _ H) as [_ Hi].
  destruct (settled_validates _ _ _ H) as [b Hb].
  destruct T; [discriminate | |]; unfold setter_check; rewrite Hi, Hb; reflexivity.
Qed.

(** *** Unions *)

Lemma tag_settled_inv rec all g ps fs :
  tag_settled rec all g ps fs ->
  (In (SymbolField _ g) fs /\ ps = payload_init all) \/
  (exists t y, In (TagField g t) fs /\ is_composite_type t = true /\
               ps = store g y (payload_init all) /\ rec t y).
Proof.
  induction fs as [|f fs IH]; simpl; [tauto|].
  destruct f as [m | m t].
  - intros [[-> Hps] | [Hne H]].
    + left. auto.
    + destruct (IH H) as [[H1 H2] | [t [y [H1 H2]]]]; [left; auto|].
      right. exists t, y. tauto.
  - intros [[-> [Hc [y [Hps Hy]]]] | [Hne H]].
    + right. exists t, y. auto.
    + destruct (IH H) as [[H1 H2] | [t' [y [H1 H2]]]]; [left; auto|].
      right. exists t', y. tauto.
Qed.

(** [to_dict] returns at the field whose name is the active tag. *)
Lemma union_to_dict_at (nested_enc : data_type -> value -> result value)
  fs f c g ps :
  NoDup (map (@ufield_name data_type) fs) -> In f fs -> ufield_name f = g ->
  union_to_dict nested_enc fs (VUnion c (Some g) ps)
  = union_to_dict nested_enc [f] (VUnion c (Some g) ps).
Proof.
  induction fs as [|f' fs IH]; simpl; intros Hnd Hin Hg; [contradiction|].
  inversion Hnd as [|? ? Hnot Hnd']; subst.
  destruct Hin as [-> | Hin].
  - rewrite String.eqb_refl. reflexivity.
  - assert (Hne : String.eqb (ufield_name f) (ufield_name f') = false).
    { apply String.eqb_neq. intros E. apply Hnot. rewrite <- E. now apply in_map. }
    rewrite Hne. simpl. rewrite (IH Hnd' Hin eq_refl). simpl.
    now rewrite String.eqb_refl.
Qed.

Section UnionDecode.

Variable nested_dec : data_type -> value -> result value.

(** Decoding a bare string: the tag of the symbol field of that name is
    selected, and the payloads are not touched. *)
Lemma union_from_dict_fields_str g fs c tag ps :
  exists tag',
    union_from_dict_fields nested_dec (VStr g) fs (VUnion c tag ps)
    = Ok (VUnion c tag' ps) /\
    (tag' = tag \/ tag' = Some g) /\
    (In (SymbolField _ g) fs -> tag' = Some g).
Proof.
  revert tag. induction fs as [|f fs IH]; simpl; intros tag.
  - exists tag. tauto.
  - destruct f as [m | m t]; simpl.
    + destruct (String.eqb_spec g m) as [<- | Hne]; simpl.
      * destruct (IH (Some g)) as [tag' [H1 [H2 H3]]].
        exists tag'. split; [exact H1|].
        assert (tag' = Some g) by (destruct H2; assumption).
        auto.
      * destruct (IH tag) as [tag' [H1 [H2 H3]]].
        exists tag'. split; [exact H1|]. split; [exact H2|].
        intros [E | Hin]; [congruence | auto].
    + destruct (IH tag) as [tag' [H1 [H2 H3]]].
      exists tag'. split; [exact H1|]. split; [exact H2|].
      intros [E | Hin]; [discriminate | auto].
Qed.

(** Decoding a one-key object: the fields of another name are passed. *)
Lemma union_from_dict_fields_skip g e fs u :
  ~ In g (map (@ufield_name data_type) fs) ->
  union_from_dict_fields nested_dec (VDict [(g, e)]) fs u = Ok u.
Proof.
  induction fs as [|f fs IH]; simpl; intros Hnot; [reflexivity|].
  assert (Hne : String.eqb (ufield_name f) g = false).
  { apply String.eqb_neq. intros E. apply Hnot. now left. }
  destruct f as [m | m t]; simpl in *.
  - apply IH. tauto.
  - rewrite Hne. simpl. apply IH. tauto.
Qed.

Lemma union_from_dict_fields_dict g e t y fs c tag ps :
  NoDup (map (@ufield_name data_type) fs) ->
  In (TagField g t) fs ->
  is_composite_type t = true ->
  nested_dec t e = Ok y ->
  isinstance y t = true ->
  (exists b, validate_of t y = Ok b) ->
  union_from_dict_fields nested_dec (VDict [(g, e)]) fs (VUnion c tag ps)
  = Ok (VUnion c (Some g) (store g y ps)).
Proof.
  intros Hnd Hin Hc Hdec Hinst [b Hval].
  induction fs as [|f fs IH]; simpl; [contradiction|].
  inversion Hnd as [|? ? Hnot Hnd']; subst.
  destruct Hin as [-> | Hin].
  - simpl. rewrite String.eqb_refl. simpl.
    destruct t as [p | n' fs' | n' fs']; [discriminate | |];
      rewrite Hdec; cbn [bind];
      unfold run_on, union_setter; rewrite Hinst, Hval; simpl;
      now apply union_from_dict_fields_skip.
  - assert (Hne : ufield_name f <> g).
    { intros E. apply Hnot. rewrite E.
      change g with (ufield_name (TagField g t)). now apply in_map. }
    apply String.eqb_neq in Hne.
    destruct f as [m | m t']; simpl in *.
    + now apply IH.
    + rewrite Hne. simpl. now apply IH.
Qed.

End UnionDecode.

(** *** Structs: the entries of the encoded object *)

Section EncodeEntries.

Variable tr : Transformer.
Variable nested : data_type -> value -> result value.
Variable self : value.

Lemma to_dict_required_lookup fs d0 :
  to_dict_required tr nested self fs = Ok d0 ->
  NoDup (field_names fs) ->
  forall f, In f fs -> field_optional f = false ->
    exists e, to_dict_field tr nested self f = Ok e /\
              lookup (field_name f) d0 = Some e.
Proof.
  revert d0. induction fs as [|g fs IH]; simpl; intros d0 H Hnd f Hin Hopt;
    [contradiction|].
  inversion Hnd as [|? ? Hnot Hnd']; subst.
  destruct Hin as [-> | Hin].
  - rewrite Hopt in H.
    destruct (to_dict_field tr nested self f) as [w|]; simpl in H; [|discriminate].
    destruct (to_dict_required tr nested self fs) as [d1|]; simpl in H; [|discriminate].
    injection H as <-. exists w. simpl. now rewrite String.eqb_refl.
  - assert (Hne : String.eqb (field_name f) (field_name g) = false).
    { apply String.eqb_neq. intros E. apply Hnot. rewrite <- E.
      unfold field_names. now apply in_map. }
    destruct (field_optional g).
    + eapply IH; eassumption.
    + destruct (to_dict_field tr nested self g) as [w|]; simpl in H; [|discriminate].
      destruct (to_dict_required tr nested self fs) as [d1|] eqn:E1; simpl in H;
        [|discriminate].
      injection H as <-. simpl. rewrite Hne. eapply IH; eauto.
Qed.

Lemma to_dict_optional_frame fs d0 d k :
  to_dict_optional tr nested self fs d0 = Ok d ->
  (forall f, In f fs -> field_optional f = true -> field_name f <> k) ->
  lookup k d = lookup k d0.
Proof.
  revert d0. induction fs as [|g fs IH]; simpl; intros d0 H Hk.
  - now injection H as <-.
  - assert (Hk' : forall f, In f fs -> field_optional f = true -> field_name f <> k)
      by (intros; apply Hk; auto).
    destruct (field_optional g) eqn:Eg; [|now apply IH].
    destruct (get_value self (field_name g)) as [v|]; simpl in H; [|discriminate].
    destruct (is_None v); [now apply IH|].
    destruct (to_dict_field tr nested self g) as [w|]; simpl in H; [|discriminate].
    rewrite (IH _ H Hk'). apply lookup_store_other.
    intros E. apply (Hk g); auto.
Qed.

Lemma to_dict_optional_lookup fs d0 d f :
  to_dict_optional tr nested self fs d0 = Ok d ->
  NoDup (field_names fs) -> In f fs -> field_optional f = true ->
  exists v, get_value self (field_name f) = Ok v /\
    if is_None v then lookup (field_name f) d = lookup (field_name f) d0
    else exists e, to_dict_field tr nested self f = Ok e /\
                   lookup (field_name f) d = Some e.
Proof.
  revert d0. induction fs as [|g fs IH]; simpl; intros d0 H Hnd Hin Hopt;
    [contradiction|].
  inversion Hnd as [|? ? Hnot Hnd']; subst.
  destruct Hin as [-> | Hin].
  - assert (Hfr : forall g, In g fs -> field_optional g = true ->
                            field_name g <> field_name f).
    { intros g Hg _ E. apply Hnot. rewrite <- E. unfold field_names. now apply in_map. }
    rewrite Hopt in H.
    destruct (get_value self (field_name f)) as [v|]; simpl in H; [|discriminate].
    exists v. split; [reflexivity|].
    destruct (is_None v).
    + eapply to_dict_optional_frame; eassumption.
    + destruct (to_dict_field tr nested self f) as [w|]; simpl in H; [|discriminate].
      exists w. split; [reflexivity|].
      rewrite (to_dict_optional_frame _ _ H Hfr). apply lookup_store_same.
  - assert (Hne : field_name f <> field_name g).
    { intros E. apply Hnot. rewrite <- E. unfold field_names. now apply in_map. }
    destruct (field_optional g); [|eapply IH; eassumption].
    destruct (get_value self (field_name g)) as [vg|]; simpl in H; [|discriminate].
    destruct (is_None vg); [eapply IH; eassumption|].
    destruct (to_dict_field tr nested self g) as [w|]; simpl in H; [|discriminate].
    destruct (IH _ H Hnd' Hin Hopt) as [v [Hv Hl]].
    exists v. split; [exact Hv|].
    destruct (is_None v); [|exact Hl].
    rewrite Hl. now apply lookup_store_other.
Qed.

Lemma to_dict_required_succeeds fs :
  (forall f, In f fs -> field_optional f = false ->
             exists e, to_dict_field tr nested self f = Ok e) ->
  exists d0, to_dict_required tr nested self fs = Ok d0.
Proof.
  induction fs as [|g fs IH]; simpl; intros H; [eauto|].
  destruct IH as [d0 Hd0]; [intros; apply H; auto|].
  destruct (field_optional g) eqn:Eg; [eauto|].
  destruct (H g (or_introl eq_refl) Eg) as [e ->]. rewrite Hd0. simpl. eauto.
Qed.

Lemma to_dict_optional_succeeds fs d0 :
  (forall f, In f fs -> field_optional f = true ->
     exists v, get_value self (field_name f) = Ok v /\
       (is_None v = false -> exists e, to_dict_field tr nested self f = Ok e)) ->
  exists d, to_dict_optional tr nested self fs d0 = Ok d.
Proof.
  revert d0. induction fs as [|g fs IH]; simpl; intros d0 H; [eauto|].
  assert (H' : forall f, In f fs -> field_optional f = true ->
     exists v, get_value self (field_name f) = Ok v /\
       (is_None v = false -> exists e, to_dict_field tr nested self f = Ok e))
    by (intros; apply H; auto).
  destruct (field_optional g) eqn:Eg; [|now apply IH].
  destruct (H g (or_introl eq_refl) Eg) as [v [-> Hv]]. simpl.
  destruct (is_None v); [now apply IH|].
  destruct (Hv eq_refl) as [e ->]. simpl. now apply IH.
Qed.

End EncodeEntries.

(** *** Structs: decoding the entries *)

Lemma store_app_fresh {A} (k : string) (a a0 : A) pre rest :
  ~ In k (keys pre) ->
  store k a (pre ++ (k, a0) :: rest) = pre ++ (k, a) :: rest.
Proof.
  induction pre as [|[k' a'] pre IH]; simpl; intros Hnot.
  - now rewrite String.eqb_refl.
  - destruct (String.eqb_spec k k') as [->|Hne]; [exfalso; auto|].
    f_equal. apply IH. tauto.
Qed.

Lemma lookup_app_fresh {A} (k : string) (a : A) pre rest :
  ~ In k (keys pre) -> lookup k (pre ++ (k, a) :: rest) = Some a.
Proof.
  induction pre as [|[k' a'] pre IH]; simpl; intros Hnot.
  - now rewrite String.eqb_refl.
  - destruct (String.eqb_spec k k') as [->|Hne]; [exfalso; auto|].
    apply IH. tauto.
Qed.

Section DecodeEntries.

Variable dv : primitive -> value -> result unit.
Variable tr : Transformer.
Variable nested : data_type -> value -> result value.
Variable d : list (string * value).

(** A field whose key has the entry [e] is decoded from [e] and set. *)
Lemma from_dict_field_present f e v x :
  lookup (field_name f) d = Some e ->
  match field_data_type f with
  | Primitive p => convert_from tr p e
  | _ => nested (field_data_type f) e
  end = Ok v ->
  setter_check dv (field_data_type f) v = Ok tt ->
  (is_composite_type (field_data_type f) = true -> is_None e = false) ->
  from_dict_field dv tr nested (VDict d) f x
  = Ok (write_slot x (field_name f) (v, true)).
Proof.
  intros Hl Hdec Hset Hnn.
  assert (Hmem : mem (field_name f) (keys d) = true).
  { apply mem_In, lookup_In_keys. eauto. }
  unfold from_dict_field, run_on, setter.
  cbn [py_get py_getitem py_contains]. rewrite Hl, Hmem. cbn [negb bind].
  destruct (field_optional f), (field_data_type f); cbn [bind];
    try rewrite (Hnn eq_refl); cbn [bind];
    rewrite Hdec; cbn [bind]; rewrite Hset; reflexivity.
Qed.

(** An optional composite field whose key has no entry is passed. *)
Lemma from_dict_field_absent f x :
  lookup (field_name f) d = None ->
  field_optional f = true ->
  is_composite_type (field_data_type f) = true ->
  from_dict_field dv tr nested (VDict d) f x = Ok x.
Proof.
  intros Hl Hopt Hc. unfold from_dict_field. simpl. rewrite Hl, Hopt.
  destruct (field_data_type f); [discriminate | reflexivity | reflexivity].
Qed.

(** The loop over the fields fills the slots in order. *)
Lemma from_dict_fields_fill n fs ss pre :
  NoDup (keys pre ++ field_names fs) ->
  Forall2 (fun (f : Field data_type) (s : string * (value * bool)) =>
             fst s = field_name f /\
             (forall x, from_dict_field dv tr nested (VDict d) f x
                        = Ok (if snd (snd s)
                              then write_slot x (field_name f) (fst (snd s), true)
                              else x)) /\
             (snd (snd s) = false -> fst (snd s) = VNone)) fs ss ->
  from_dict_fields dv tr nested (VDict d) fs
    (VStruct n (pre ++ map (fun f => (field_name f, (VNone, false))) fs))
  = Ok (VStruct n (pre ++ ss)).
Proof.
  intros Hnd H. revert pre Hnd.
  induction H as [|f [k [v h]] fs ss [Hk [Hstep Hun]] Hrest IH]; intros pre Hnd.
  - reflexivity.
  - simpl in *. subst k. rewrite Hstep. cbn [bind].
    assert (Hfresh : ~ In (field_name f) (keys pre)).
    { intros Hin. apply NoDup_remove_2 in Hnd. apply Hnd.
      apply in_or_app. now left. }
    assert (Hnd' : NoDup (keys (pre ++ [(field_name f, (v, h))]) ++ field_names fs)).
    { unfold keys. rewrite map_app. simpl. rewrite <- app_assoc. exact Hnd. }
    specialize (IH (pre ++ [(field_name f, (v, h))]) Hnd').
    rewrite <- !app_assoc in IH. simpl in IH.
    destruct h.
    + cbn [write_slot]. rewrite store_app_fresh by assumption. exact IH.
    + pose proof (Hun eq_refl) as Hv. subst v. exact IH.
Qed.

End DecodeEntries.

(** *** The round trip *)

Lemma Forall2_impl_In {A B} (R1 R2 : A -> B -> Prop) l1 l2 :
  Forall2 R1 l1 l2 ->
  (forall a b, In a l1 -> In b l2 -> R1 a b -> R2 a b) ->
  Forall2 R2 l1 l2.
Proof.
  induction 1 as [|a b l1 l2 Hab H IH]; intros Himp; constructor.
  - apply Himp; [now left | now left | exact Hab].
  - apply IH. intros a' b' Ha Hb. apply Himp; now right.
Qed.

Lemma In_lookup_NoDup {A} (k : string) (a : A) (d : list (string * A)) :
  NoDup (keys d) -> In (k, a) d -> lookup k d = Some a.
Proof.
  induction d as [|[k' a'] d IH]; simpl; intros Hnd Hin; [contradiction|].
  inversion Hnd as [|? ? Hnot Hnd']; subst.
  destruct Hin as [E | Hin].
  - injection E as -> ->. now rewrite String.eqb_refl.
  - destruct (String.eqb_spec k k') as [->|Hne]; [|auto].
    exfalso. apply Hnot. change k' with (fst (k', a)). now apply in_map.
Qed.

Lemma slots_settled_Forall2 dv rec fs ss :
  slots_settled dv rec fs ss ->
  Forall2 (fun (f : Field data_type) (s : string * (value * bool)) =>
             fst s = field_name f /\
             slot_settled dv rec f (fst (snd s)) (snd (snd s))) fs ss.
Proof.
  revert ss. induction fs as [|f fs IH]; intros [|[k [v h]] ss]; simpl;
    intros Hss; try contradiction.
  - constructor.
  - destruct Hss as [Hk [Hs Hrest]].
    constructor; [split; assumption | now apply IH].
Qed.

Lemma Forall2_slot_of_field (Q : Field data_type -> value * bool -> Prop) fs ss :
  Forall2 (fun (f : Field data_type) (s : string * (value * bool)) =>
             fst s = field_name f /\ Q f (snd s)) fs ss ->
  NoDup (field_names fs) ->
  forall f, In f fs ->
    exists a, lookup (field_name f) ss = Some a /\ Q f a.
Proof.
  induction 1 as [|g [k a] fs ss [Hk Hq] H IH]; simpl; intros Hnd f Hin;
    [contradiction|].
  inversion Hnd as [|? ? Hnot Hnd']; subst. simpl in Hk, Hq. subst k.
  destruct Hin as [-> | Hin].
  - rewrite String.eqb_refl. eauto.
  - destruct (String.eqb_spec (field_name f) (field_name g)) as [E | Hne].
    + exfalso. apply Hnot. rewrite <- E. unfold field_names. now apply in_map.
    + now apply IH.
Qed.

Section RoundTrip.

Variable dv : primitive -> value -> result unit.
Variable tr : Transformer.
Hypothesis Hfaithful : faithful dv tr.

(** What [to_dict] returns for a settled instance is not [None]. *)
Lemma to_dict_not_None T x e :
  well_named T -> settled dv T x -> to_dict tr T x = Ok e -> is_None e = false.
Proof.
  destruct T as [p | n fs | n fs]; [contradiction | |].
  - intros _ _. rewrite to_dict_Struct.
    destruct (isinstance x (Struct n fs)); [|discriminate].
    unfold struct_to_dict.
    destruct (to_dict_required tr (to_dict tr) x fs); simpl; [|discriminate].
    destruct (to_dict_optional tr (to_dict tr) x fs a); simpl; [|discriminate].
    intros E. injection E as <-. reflexivity.
  - intros [Hnd _] Hx. rewrite to_dict_Union.
    destruct x; try contradiction. destruct tag as [g|]; [|contradiction].
    destruct Hx as [-> Htag].
    destruct (isinstance _ _); [|discriminate].
    assert (Hf : exists f, In f fs /\ ufield_name f = g).
    { destruct (tag_settled_inv _ _ _ _ _ Htag) as [[H _] | [t [y [H _]]]];
        eexists; (split; [exact H | reflexivity]). }
    destruct Hf as [f [Hin Hg]].
    rewrite (union_to_dict_at (to_dict tr) _ _ n payloads Hnd Hin Hg).
    simpl. rewrite Hg, String.eqb_refl. simpl.
    destruct f as [m | m t].
    + intros E. injection E as <-. reflexivity.
    + destruct t as [p | n' fs' | n' fs']; [discriminate | |];
        (destruct (negb (g =? m)%string); cbn [bind]; [discriminate|]);
        (destruct (lookup m payloads) as [v|]; cbn [bind]; [|discriminate]);
        (destruct (to_dict tr _ v); cbn [bind]; intros E;
         [injection E as <-; reflexivity | discriminate]).
Qed.

(** What a settled slot gives: the entry that encodes it decodes back to
    its value, which the setter accepts; or the slot is that of an optional
    composite field left unset. *)
Lemma settled_field_codec self f v h :
  well_named (field_data_type f) ->
  (forall y, settled dv (field_data_type f) y ->
     exists w, to_dict tr (field_data_type f) y = Ok w /\
               from_dict dv tr (field_data_type f) w = Ok y) ->
  get_value self (field_name f) = Ok v ->
  slot_settled dv (settled dv) f v h ->
  (h = true /\
   (field_optional f = true -> is_None v = false) /\
   exists e,
     to_dict_field tr (to_dict tr) self f = Ok e /\
     match field_data_type f with
     | Primitive p => convert_from tr p e
     | _ => from_dict dv tr (field_data_type f) e
     end = Ok v /\
     setter_check dv (field_data_type f) v = Ok tt /\
     (is_composite_type (field_data_type f) = true -> is_None e = false))
  \/ (h = false /\ v = VNone /\ field_optional f = true /\
      is_composite_type (field_data_type f) = true).
Proof.
  intros Hwn IH Hget Hs. unfold slot_settled in Hs. unfold to_dict_field.
  rewrite Hget. cbn [bind].
  destruct (field_data_type f) as [p | n fs | n fs] eqn:Et.
  - destruct Hs as [-> [Hv Hnn]]. left. split; [reflexivity|]. split.
    + intros Ho. specialize (Hnn Ho). destruct v; try reflexivity. congruence.
    + pose proof Hfaithful as Hf. unfold faithful in Hf.
      destruct (Hf _ _ Hv) as [u [Hto Hfrom]].
      exists u. repeat split; try assumption. discriminate.
  - destruct h.
    + left. split; [reflexivity|].
      destruct (settled_instance _ _ _ Hs) as [Hnn _].
      split; [auto|]. destruct (IH v Hs) as [w [Hto Hfrom]].
      exists w. repeat split; try assumption.
      * now apply settled_setter_check.
      * intros _. eapply to_dict_not_None; eassumption.
    + right. destruct Hs as [Ho ->]. auto.
  - destruct h.
    + left. split; [reflexivity|].
      destruct (settled_instance _ _ _ Hs) as [Hnn _].
      split; [auto|]. destruct (IH v Hs) as [w [Hto Hfrom]].
      exists w. repeat split; try assumption.
      * now apply settled_setter_check.
      * intros _. eapply to_dict_not_None; eassumption.
    + right. destruct Hs as [Ho ->]. auto.
Qed.

End RoundTrip.

Section RoundTripStruct.

Variable dv : primitive -> value -> result unit.
Variable tr : Transformer.
Hypothesis Hfaithful : faithful dv tr.

Variable n : string.
Variable fs : list (Field data_type).
Variable slots : list (string * (value * bool)).

Hypothesis Hnd : NoDup (field_names fs).
Hypothesis Hwn : forall f, In f fs -> well_named (field_data_type f).
Hypothesis IH :
  forall f, In f fs -> forall y, settled dv (field_data_type f) y ->
    exists w, to_dict tr (field_data_type f) y = Ok w /\
              from_dict dv tr (field_data_type f) w = Ok y.
Hypothesis Hss : slots_settled dv (settled dv) fs slots.

Lemma settled_struct_slot (f : Field data_type) :
  In f fs ->
  exists v h, lookup (field_name f) slots = Some (v, h) /\
              slot_settled dv (settled dv) f v h.
Proof.
  intros Hin.
  destruct (Forall2_slot_of_field
              (fun f a => slot_settled dv (settled dv) f (fst a) (snd a))
              (slots_settled_Forall2 _ _ _ _ Hss) Hnd f Hin)
    as [[v h] [Hl Hq]].
  eauto.
Qed.

Lemma settled_struct_get (f : Field data_type) v h :
  lookup (field_name f) slots = Some (v, h) ->
  get_value (VStruct n slots) (field_name f) = Ok v.
Proof. intros Hl. unfold get_value, slot_of. now rewrite Hl. Qed.

Lemma required_not_optional_name (f g : Field data_type) :
  In f fs -> In g fs -> field_optional f = false -> field_optional g = true ->
  field_name g <> field_name f.
Proof.
  intros Hf Hg Hof Hog E.
  assert (g = f) by (eapply NoDup_field_names_inj; eassumption).
  subst g. congruence.
Qed.

Lemma settled_struct_codec (f : Field data_type) v h :
  In f fs ->
  lookup (field_name f) slots = Some (v, h) ->
  slot_settled dv (settled dv) f v h ->
  (h = true /\
   (field_optional f = true -> is_None v = false) /\
   exists e,
     to_dict_field tr (to_dict tr) (VStruct n slots) f = Ok e /\
     match field_data_type f with
     | Primitive p => convert_from tr p e
     | _ => from_dict dv tr (field_data_type f) e
     end = Ok v /\
     setter_check dv (field_data_type f) v = Ok tt /\
     (is_composite_type (field_data_type f) = true -> is_None e = false))
  \/ (h = false /\ v = VNone /\ field_optional f = true /\
      is_composite_type (field_data_type f) = true).
Proof.
  intros Hin Hl Hs. eapply settled_field_codec; eauto.
  eapply settled_struct_get; eassumption.
Qed.

Lemma settled_struct_encodes :
  exists d0 d,
    to_dict_required tr (to_dict tr) (VStruct n slots) fs = Ok d0 /\
    to_dict_optional tr (to_dict tr) (VStruct n slots) fs d0 = Ok d.
Proof.
  destruct (to_dict_required_succeeds tr (to_dict tr) (VStruct n slots) fs) as [d0 Hd0].
  { intros f Hin Hopt. destruct (settled_struct_slot f Hin) as [v [h [Hl Hs]]].
    destruct (settled_struct_codec f Hin Hl Hs)
      as [[_ [_ [e [He _]]]] | [_ [_ [Ho _]]]]; [eauto | congruence]. }
  destruct (to_dict_optional_succeeds tr (to_dict tr) (VStruct n slots) fs d0) as [d Hd].
  { intros f Hin Hopt. destruct (settled_struct_slot f Hin) as [v [h [Hl Hs]]].
    exists v. split; [now apply settled_struct_get with (h := h)|].
    intros Hnn.
    destruct (settled_struct_codec f Hin Hl Hs)
      as [[_ [_ [e [He _]]]] | [_ [Hv _]]]; [eauto|].
    subst v. discriminate. }
  eauto.
Qed.

Lemma struct_round_trip :
  exists w, to_dict tr (Struct n fs) (VStruct n slots) = Ok w /\
            from_dict dv tr (Struct n fs) w = Ok (VStruct n slots).
Proof.
  destruct settled_struct_encodes as [d0 [d [Hd0 Hd]]].
  pose proof Hd0 as Hk0. apply to_dict_required_keys in Hk0.
  pose proof (fun k => to_dict_optional_keys _ _ _ _ _ k Hd) as Hkd.
  pose proof (slots_settled_keys _ _ _ _ Hss) as Hkeys.
  exists (VDict d). split.
  - rewrite to_dict_Struct. cbn [isinstance].
    rewrite String.eqb_refl. unfold struct_to_dict.
    rewrite Hd0. cbn [bind]. rewrite Hd. reflexivity.
  - rewrite from_dict_Struct. unfold struct_from_dict. cbn [py_iter bind].
    rewrite check_keys_known.
    2:{ intros k Hk. apply Hkd in Hk.
        destruct Hk as [Hk | [f [v [Hin [_ [<- _]]]]]].
        - rewrite Hk0 in Hk. unfold field_names in *.
          apply in_map_iff in Hk. destruct Hk as [f [<- Hf]].
          apply filter_In in Hf. apply in_map. tauto.
        - unfold field_names. now apply in_map. }
    cbn [bind].
    apply (@from_dict_fields_fill dv tr (from_dict dv tr) d n fs slots []);
      [exact Hnd|].
    eapply Forall2_impl_In; [exact (slots_settled_Forall2 _ _ _ _ Hss)|].
    intros f [k [v h]] Hin Hins [Hk Hs]. simpl in Hk, Hs. subst k. simpl.
    assert (Hl : lookup (field_name f) slots = Some (v, h)).
    { apply In_lookup_NoDup; [now rewrite Hkeys | exact Hins]. }
    pose proof (settled_struct_get f Hl) as Hget.
    split; [reflexivity|].
    destruct (settled_struct_codec f Hin Hl Hs)
      as [[-> [Hoptnn [e [He [Hdec [Hset Hne]]]]]] | [-> [-> [Ho Hc]]]].
    + split; [|discriminate]. intros x.
      apply from_dict_field_present with (e := e); try assumption.
      destruct (field_optional f) eqn:Eo.
      * destruct (@to_dict_optional_lookup tr (to_dict tr) (VStruct n slots) fs d0 d f
                    Hd Hnd Hin Eo) as [v' [Hv' Hl']].
        rewrite Hget in Hv'. injection Hv' as <-.
        rewrite (Hoptnn eq_refl) in Hl'. destruct Hl' as [e' [He' Hl']].
        congruence.
      * destruct (@to_dict_required_lookup tr (to_dict tr) (VStruct n slots) fs d0
                    Hd0 Hnd f Hin Eo) as [e' [He' Hl']].
        rewrite (@to_dict_optional_frame tr (to_dict tr) (VStruct n slots) fs d0 d
                   (field_name f) Hd).
        -- congruence.
        -- intros g Hg Hog. now apply required_not_optional_name.
    + split; [|reflexivity]. intros x. apply from_dict_field_absent; try assumption.
      destruct (@to_dict_optional_lookup tr (to_dict tr) (VStruct n slots) fs d0 d f
                  Hd Hnd Hin Ho) as [v' [Hv' Hl']].
      rewrite Hget in Hv'. injection Hv' as <-. simpl in Hl'. rewrite Hl'.
      apply lookup_None_keys. rewrite Hk0. unfold field_names.
      intros Hk. apply in_map_iff in Hk. destruct Hk as [g [Hname Hg]].
      apply filter_In in Hg. destruct Hg as [Hg Hgo].
      apply (required_not_optional_name g f Hg Hin); [|assumption|now symmetry].
      now destruct (field_optional g).
Qed.

End RoundTripStruct.

Section RoundTripUnion.

Variable dv : primitive -> value -> result unit.
Variable tr : Transformer.

Variable n : string.
Variable fs : list (UnionField data_type).
Variable g : string.
Variable ps : list (string * value).

Hypothesis Hnd : NoDup (map (@ufield_name data_type) fs).
Hypothesis IH :
  forall m t, In (TagField m t) fs -> forall y, settled dv t y ->
    exists w, to_dict tr t y = Ok w /\ from_dict dv tr t w = Ok y.
Hypothesis Htag : tag_settled (settled dv) fs g ps fs.

Lemma union_round_trip :
  exists w, to_dict tr (Union n fs) (VUnion n (Some g) ps) = Ok w /\
            from_dict dv tr (Union n fs) w = Ok (VUnion n (Some g) ps).
Proof.
  destruct (tag_settled_inv _ _ _ _ _ Htag)
    as [[Hin Hps] | [t [y [Hin [Hc [Hps Hy]]]]]].
  - exists (VStr g). split.
    + rewrite to_dict_Union. cbn [isinstance]. rewrite String.eqb_refl.
      rewrite (@union_to_dict_at (to_dict tr) fs (SymbolField _ g) n g ps
                 Hnd Hin eq_refl).
      simpl. now rewrite String.eqb_refl.
    + rewrite from_dict_Union. unfold union_from_dict, union_init.
      cbn [is_dict andb].
      destruct (union_from_dict_fields_str (from_dict dv tr) g fs n None
                  (payload_init fs)) as [tag' [E [_ Htag']]].
      rewrite E, (Htag' Hin), Hps. reflexivity.
  - destruct (IH g t Hin y Hy) as [w [Hto Hfrom]].
    destruct (settled_instance _ _ _ Hy) as [_ Hinst].
    exists (VDict [(g, w)]). split.
    + rewrite to_dict_Union. cbn [isinstance]. rewrite String.eqb_refl.
      rewrite (@union_to_dict_at (to_dict tr) fs (TagField g t) n g ps
                 Hnd Hin eq_refl).
      cbn [union_to_dict ufield_name is_tag fst]. rewrite String.eqb_refl.
      cbn [bind]. unfold union_getter. cbn [is_tag fst]. rewrite String.eqb_refl.
      cbn [bind negb read_payload]. rewrite Hps, lookup_store_same.
      destruct t as [p | n' fs' | n' fs']; [discriminate | |];
        cbn [bind]; rewrite Hto; reflexivity.
    + rewrite from_dict_Union. unfold union_from_dict, union_init.
      cbn [is_dict dict_len length Nat.eqb negb andb].
      rewrite Hps.
      eapply union_from_dict_fields_dict; try eassumption.
      eapply settled_validates; eassumption.
Qed.

End RoundTripUnion.

(** *** What decoding leaves in the slot of an optional composite field *)

Section DecodeSlots.

Variable dv : primitive -> value -> result unit.
Variable tr : Transformer.
Variable nested : data_type -> value -> result value.

(** Only a wire object gets past the lines of a field. *)
Lemma from_dict_field_dict obj f x x' :
  from_dict_field dv tr nested obj f x = Ok x' -> is_dict obj = true.
Proof.
  unfold from_dict_field. intros H. destruct obj; try reflexivity; exfalso;
    revert H; destruct (field_optional f), (field_data_type f); simpl;
    try discriminate;
    match goal with
    | |- (if ?c then _ else _) = _ -> _ => destruct c; discriminate
    end.
Qed.

Lemma from_dict_field_writes obj f c ss x' :
  from_dict_field dv tr nested obj f (VStruct c ss) = Ok x' ->
  exists ss', x' = VStruct c ss' /\
    (ss' = ss \/ exists v, ss' = store (field_name f) (v, true) ss).
Proof.
  assert (Hset : forall v,
             run_on (setter dv f v) (VStruct c ss) = Ok x' ->
             exists ss', x' = VStruct c ss' /\
               (ss' = ss \/ exists v, ss' = store (field_name f) (v, true) ss)).
  { intros v E. unfold run_on, setter in E.
    destruct (setter_check dv (field_data_type f) v); simpl in E;
      [|discriminate E].
    injection E as <-. eexists. split; [reflexivity|]. right. eauto. }
  unfold from_dict_field. cbv zeta. intros H.
  destruct (field_optional f); destruct (field_data_type f) eqn:Et;
    crunch H; eauto; injection H as <-; eauto.
Qed.

(** The lines of an optional composite field leave the instance alone when
    the wire object has no entry, or [None], under its key, and set the slot
    to an instance otherwise. *)
Lemma from_dict_field_optional_composite obj f c ss x' :
  field_optional f = true ->
  is_composite_type (field_data_type f) = true ->
  from_dict_field dv tr nested obj f (VStruct c ss) = Ok x' ->
  (py_get obj (field_name f) = Ok VNone /\ x' = VStruct c ss) \/
  (py_get obj (field_name f) <> Ok VNone /\
   exists y, is_None y = false /\
             x' = VStruct c (store (field_name f) (y, true) ss)).
Proof.
  intros Ho Hc. unfold from_dict_field. cbv zeta. rewrite Ho. intros H.
  destruct (field_data_type f) eqn:Et; [discriminate | |];
    crunch H;
    match goal with
    | E : is_None ?w = true |- _ =>
        injection H as <-; left;
        split; [destruct w; try discriminate E; reflexivity | reflexivity]
    | E : is_None ?w = false |- _ =>
        right;
        split;
        [ intros E'; injection E' as ->; discriminate E
        | unfold run_on, setter, setter_check in H; rewrite Et in H;
          match type of H with
          | context [isinstance ?y ?t] =>
              destruct (isinstance y t) eqn:Ei; [|discriminate H];
              destruct (validate_of t y); simpl in H; [|discriminate H];
              injection H as <-; exists y;
              split; [destruct y; simpl in Ei; try discriminate Ei; reflexivity
                     | reflexivity]
          end ]
    end.
Qed.

Lemma from_dict_fields_frame obj fs c ss x' k :
  from_dict_fields dv tr nested obj fs (VStruct c ss) = Ok x' ->
  ~ In k (field_names fs) ->
  exists ss', x' = VStruct c ss' /\ lookup k ss' = lookup k ss.
Proof.
  revert ss. induction fs as [|g fs IH]; simpl; intros ss H Hnot.
  - injection H as <-. eauto.
  - destruct (from_dict_field dv tr nested obj g (VStruct c ss)) as [x1|] eqn:E;
      [|discriminate].
    cbn [bind] in H.
    destruct (from_dict_field_writes _ _ _ _ E) as [ss1 [-> Hss1]].
    destruct (IH ss1 H) as [ss' [-> Hl]]; [tauto|].
    exists ss'. split; [reflexivity|]. rewrite Hl.
    destruct Hss1 as [-> | [v ->]]; [reflexivity|].
    apply lookup_store_other. intros E'. apply Hnot. now left.
Qed.

Lemma from_dict_fields_optional_composite obj fs c ss x' f :
  from_dict_fields dv tr nested obj fs (VStruct c ss) = Ok x' ->
  NoDup (field_names fs) -> In f fs ->
  field_optional f = true ->
  is_composite_type (field_data_type f) = true ->
  exists ss', x' = VStruct c ss' /\
    ((py_get obj (field_name f) = Ok VNone /\
      lookup (field_name f) ss' = lookup (field_name f) ss) \/
     (py_get obj (field_name f) <> Ok VNone /\
      exists y, is_None y = false /\
                lookup (field_name f) ss' = Some (y, true))).
Proof.
  revert ss. induction fs as [|g fs IH]; simpl; intros ss H Hnd Hin Ho Hc;
    [contradiction|].
  inversion Hnd as [|? ? Hnot Hnd']; subst.
  destruct (from_dict_field dv tr nested obj g (VStruct c ss)) as [x1|] eqn:E;
    [|discriminate].
  cbn [bind] in H.
  destruct Hin as [-> | Hin].
  - destruct (from_dict_field_optional_composite _ _ _ _ Ho Hc E)
      as [[Hg ->] | [Hg [y [Hy ->]]]];
      destruct (from_dict_fields_frame _ _ _ _ (field_name f) H Hnot)
        as [ss' [-> Hl]];
      exists ss'; (split; [reflexivity|]).
    + left. auto.
    + right. split; [exact Hg|]. exists y. split; [exact Hy|].
      rewrite Hl. apply lookup_store_same.
  - destruct (from_dict_field_writes _ _ _ _ E) as [ss1 [-> Hss1]].
    destruct (IH ss1 H Hnd' Hin Ho Hc) as [ss' [-> Hcases]].
    exists ss'. split; [reflexivity|].
    destruct Hcases as [[Hg Hl] | Hcase]; [|now right].
    left. split; [exact Hg|]. rewrite Hl.
    destruct Hss1 as [-> | [v ->]]; [reflexivity|].
    apply lookup_store_other. intros E'. apply Hnot. rewrite <- E'.
    unfold field_names. now apply in_map.
Qed.

End DecodeSlots.

Lemma lookup_struct_init (fields : list (Field data_type)) f :
  In f fields ->
  lookup (field_name f) (map (fun g => (field_name g, (VNone, false))) fields)
  = Some (VNone, false).
Proof.
  induction fields as [|g fs IH]; simpl; intros Hin; [contradiction|].
  destruct (String.eqb (field_name f) (field_name g)) eqn:E; [reflexivity|].
  destruct Hin as [-> | Hin]; [|auto].
  now rewrite String.eqb_refl in E.
Qed.

Lemma round_trip dv tr :
  faithful dv tr ->
  forall T, well_named T ->
    forall x, settled dv T x ->
      exists w, to_dict tr T x = Ok w /\ from_dict dv tr T w = Ok x.
Proof.
  intros Hf T. induction T as [p | n fs IH | n fs IH] using data_type_induction;
    intros Hwn x Hx.
  - contradiction.
  - destruct x; try contradiction. destruct Hx as [-> Hss].
    rewrite Forall_forall in IH.
    apply struct_round_trip; try assumption.
    + exact (proj1 Hwn).
    + intros f Hin. eapply well_named_field; eassumption.
    + intros f Hin y Hy. apply IH; [assumption | | assumption].
      eapply well_named_field; eassumption.
  - destruct x; try contradiction. destruct tag as [g|]; [|contradiction].
    destruct Hx as [-> Htag].
    rewrite Forall_forall in IH.
    apply union_round_trip with (dv := dv); try assumption.
    + exact (proj1 Hwn).
    + intros m t Hin y Hy. apply (IH _ Hin); [|assumption].
      eapply well_named_tag; eassumption.
Qed.




(** Whatever the validators and the transformer, the fresh [Paging]
    instance is not what decoding its encoding returns. *)
Lemma fresh_Paging_does_not_round_trip dv tr :
  from_dict dv tr Paging (VDict []) <> Ok (struct_init "Paging" [limit]).
Proof.
  simpl. unfold struct_from_dict. simpl. unfold from_dict_field. simpl.
  destruct (convert_from tr (Integer UInt32 None None) VNone) as [v|e]; simpl;
    [|discriminate].
  unfold run_on, setter. simpl.
  destruct (dv (Integer UInt32 None None) v); simpl; discriminate.
Qed.

(* ================================================================== *)
(** * Further properties of the generated classes *)

Unset Implicit Arguments.

(** ** Properties of a struct field *)

Lemma store_store {A} (k : string) (a b : A) (d : list (string * A)) :
  store k a (store k b d) = store k a d.
Proof.
  induction d as [|[k' c] d IH]; simpl.
  - now rewrite String.eqb_refl.
  - destruct (String.eqb k k') eqn:E; simpl; rewrite E; [reflexivity|].
    now rewrite IH.
Qed.

Lemma store_lookup_same {A} (k : string) (a : A) (d : list (string * A)) :
  lookup k d = Some a -> store k a d = d.
Proof.
  induction d as [|[k' c] d IH]; simpl; [discriminate|].
  destruct (String.eqb k k') eqn:E.
  - intros H. injection H as ->. reflexivity.
  - intros H. now rewrite IH.
Qed.

Lemma setter_returns dv (f : Field data_type) val self self' :
  setter dv f val self = (Ok tt, self') ->
  setter_check dv (field_data_type f) val = Ok tt /\
  self' = write_slot self (field_name f) (val, true).
Proof.
  unfold setter. destruct (setter_check dv (field_data_type f) val) as [[]|e];
    intros H; [|discriminate].
  injection H as <-. auto.
Qed.

Lemma setter_check_accepted dv (f : Field data_type) val :
  setter_check dv (field_data_type f) val = Ok tt -> accepted dv f val.
Proof.
  unfold setter_check, accepted.
  destruct (field_data_type f) as [p | n fs | n fs]; [auto | |];
    (destruct (isinstance val _); [reflexivity | discriminate]).
Qed.

(** X1: a read that follows a setter that returned yields the value just
    set, and the reads of the fields of another name yield what they did
    before. *)
Theorem getter_after_setter :
  forall dv (f : Field data_type) val c slots self',
    setter dv f val (VStruct c slots) = (Ok tt, self') ->
    getter f self' = (Ok val, self') /\
    forall g : Field data_type,
      field_name g <> field_name f ->
      fst (getter g self') = fst (getter g (VStruct c slots)).
Proof.
  intros dv f val c slots self' H.
  destruct (setter_returns _ _ _ _ _ H) as [_ ->]. cbn [write_slot]. split.
  - apply getter_set. unfold slot_of. now rewrite lookup_store_same.
  - intros g Hne. unfold getter, get_has, get_value, slot_of. cbn [fst].
    now rewrite lookup_store_other.
Qed.

Lemma getter_after_setter_witness :
  setter spec_validate quota (VInt 7)
    (VStruct "QuotaInfo" [("quota", (VNone, false))])
  = (Ok tt, VStruct "QuotaInfo" [("quota", (VInt 7, true))]) /\
  getter quota (VStruct "QuotaInfo" [("quota", (VInt 7, true))])
  = (Ok (VInt 7), VStruct "QuotaInfo" [("quota", (VInt 7, true))]).
Proof.
  assert (E : setter spec_validate quota (VInt 7)
                (VStruct "QuotaInfo" [("quota", (VNone, false))])
              = (Ok tt, VStruct "QuotaInfo" [("quota", (VInt 7, true))]))
    by reflexivity.
  split; [exact E|].
  exact (proj1 (getter_after_setter _ _ _ _ _ _ E)).
Defined.

(** X2: setting a field twice is setting it to the second value; and on a
    slot that was unset, holding [None], the deleter called with its [val]
    argument takes the instance back to what it was before the setter. *)
Theorem setter_then_setter_or_deleter :
  forall dv (f : Field data_type) v1 c slots x1,
    setter dv f v1 (VStruct c slots) = (Ok tt, x1) ->
    (forall v2 x2,
        setter dv f v2 x1 = (Ok tt, x2) ->
        setter dv f v2 (VStruct c slots) = (Ok tt, x2)) /\
    (forall a,
        slot_of (VStruct c slots) (field_name f) = Ok (VNone, false) ->
        deleter f [a] x1 = (Ok tt, VStruct c slots)).
Proof.
  intros dv f v1 c slots x1 H1.
  destruct (setter_returns _ _ _ _ _ H1) as [_ ->]. cbn [write_slot]. split.
  - intros v2 x2 H2. destruct (setter_returns _ _ _ _ _ H2) as [Hc ->].
    unfold setter. rewrite Hc. cbn [write_slot]. now rewrite store_store.
  - intros a Hs. unfold deleter. cbn [write_slot]. rewrite store_store.
    unfold slot_of in Hs.
    destruct (lookup (field_name f) slots) as [s|] eqn:E; [|discriminate].
    injection Hs as ->. now rewrite (store_lookup_same _ _ _ E).
Qed.

Lemma setter_then_setter_or_deleter_witness :
  setter spec_validate quota (VInt 5)
    (VStruct "QuotaInfo" [("quota", (VNone, false))])
  = (Ok tt, VStruct "QuotaInfo" [("quota", (VInt 5, true))]) /\
  setter spec_validate quota (VInt 7)
    (VStruct "QuotaInfo" [("quota", (VInt 5, true))])
  = (Ok tt, VStruct "QuotaInfo" [("quota", (VInt 7, true))]) /\
  setter spec_validate quota (VInt 7)
    (VStruct "QuotaInfo" [("quota", (VNone, false))])
  = (Ok tt, VStruct "QuotaInfo" [("quota", (VInt 7, true))]) /\
  slot_of (VStruct "QuotaInfo" [("quota", (VNone, false))]) (field_name quota)
  = Ok (VNone, false) /\
  deleter quota [VNone] (VStruct "QuotaInfo" [("quota", (VInt 5, true))])
  = (Ok tt, VStruct "QuotaInfo" [("quota", (VNone, false))]).
Proof.
  assert (E1 : setter spec_validate quota (VInt 5)
                 (VStruct "QuotaInfo" [("quota", (VNone, false))])
               = (Ok tt, VStruct "QuotaInfo" [("quota", (VInt 5, true))]))
    by reflexivity.
  assert (E2 : setter spec_validate quota (VInt 7)
                 (VStruct "QuotaInfo" [("quota", (VInt 5, true))])
               = (Ok tt, VStruct "QuotaInfo" [("quota", (VInt 7, true))]))
    by reflexivity.
  destruct (setter_then_setter_or_deleter _ _ _ _ _ _ E1) as [Hs Hd].
  split; [exact E1|]. split; [exact E2|]. split; [exact (Hs _ _ E2)|].
  split; [reflexivity|]. exact (Hd VNone eq_refl).
Defined.

Lemma slot_of_struct_init_unset name (fields : list (Field data_type)) k v h :
  slot_of (struct_init name fields) k = Ok (v, h) -> v = VNone /\ h = false.
Proof.
  unfold struct_init, slot_of.
  induction fields as [|g fs IH]; simpl; [discriminate|].
  destruct (String.eqb k (field_name g)); [|exact IH].
  intros H. injection H as <- <-. auto.
Qed.

(** X3: a value is never stored unchecked.  When the field names are
    distinct, every set slot of a fresh instance holds a value that passes
    the check of its field's setter (there is none), and every operation of
    the class keeps it so. *)
Theorem slots_accepted_invariant :
  forall dv name fields,
    NoDup (field_names fields) ->
    slots_accepted dv fields (struct_init name fields) /\
    (forall o self,
        op_of fields o ->
        slots_accepted dv fields self ->
        slots_accepted dv fields (after dv name fields o self)).
Proof.
  intros dv name fields Hnd. split.
  - intros f v _ Hs. apply slot_of_struct_init_unset in Hs. destruct Hs; discriminate.
  - intros o self Hop Hinv.
    destruct o as [g | g val | g args | | tr]; unfold after; try exact Hinv.
    + unfold setter.
      destruct (setter_check dv (field_data_type g) val) as [[]|e] eqn:Ec;
        cbn [snd]; [|exact Hinv].
      intros f v Hin Hs. destruct self; cbn [write_slot] in Hs;
        try (now apply Hinv).
      unfold slot_of in Hs.
      destruct (String.eqb_spec (field_name f) (field_name g)) as [E | Hne].
      * rewrite E, lookup_store_same in Hs. injection Hs as <-.
        assert (f = g) by (eapply NoDup_field_names_inj; eassumption).
        subst g. now apply setter_check_accepted.
      * rewrite lookup_store_other in Hs by assumption. now apply Hinv.
    + unfold deleter. destruct args as [|a [|b args]]; cbn [snd]; try exact Hinv.
      intros f v Hin Hs. destruct self; cbn [write_slot] in Hs;
        try (now apply Hinv).
      unfold slot_of in Hs.
      destruct (String.eqb_spec (field_name f) (field_name g)) as [E | Hne].
      * rewrite E, lookup_store_same in Hs. discriminate.
      * rewrite lookup_store_other in Hs by assumption. now apply Hinv.
Qed.

Lemma slots_accepted_invariant_witness :
  NoDup (field_names [quota]) /\
  op_of [quota] (OpSet quota (VInt 7)) /\
  slots_accepted spec_validate [quota] (struct_init "QuotaInfo" [quota]) /\
  slots_accepted spec_validate [quota]
    (after spec_validate "QuotaInfo" [quota] (OpSet quota (VInt 7))
       (struct_init "QuotaInfo" [quota])).
Proof.
  assert (Hnd : NoDup (field_names [quota])).
  { repeat constructor. simpl. tauto. }
  assert (Hop : op_of [quota] (OpSet quota (VInt 7))) by (now left).
  destruct (slots_accepted_invariant spec_validate "QuotaInfo" [quota] Hnd)
    as [H0 Hstep].
  split; [exact Hnd|]. split; [exact Hop|]. split; [exact H0|].
  exact (Hstep _ _ Hop H0).
Defined.

(** X4: the setter of a composite field calls [val.validate()] and drops
    what it returns: every instance of the field's class is stored, valid
    or not. *)
Theorem composite_setter_drops_validate :
  forall dv (f : Field data_type) val self b,
    is_composite_type (field_data_type f) = true ->
    isinstance val (field_data_type f) = true ->
    validate_of (field_data_type f) val = Ok b ->
    setter dv f val self
    = (Ok tt, write_slot self (field_name f) (val, true)).
Proof.
  intros dv f val self b Hc Hi Hv. unfold setter, setter_check.
  destruct (field_data_type f); [discriminate | |]; rewrite Hi, Hv; reflexivity.
Qed.

Lemma composite_setter_drops_validate_witness :
  is_composite_type (field_data_type quota_info) = true /\
  isinstance (struct_init "QuotaInfo" [quota]) (field_data_type quota_info) = true /\
  validate_of (field_data_type quota_info) (struct_init "QuotaInfo" [quota])
  = Ok false /\
  setter spec_validate quota_info (struct_init "QuotaInfo" [quota])
    (struct_init "AccountInfo" [account_id; quota_info])
  = (Ok tt,
     write_slot (struct_init "AccountInfo" [account_id; quota_info])
       (field_name quota_info) (struct_init "QuotaInfo" [quota], true)).
Proof.
  split; [reflexivity|]. split; [reflexivity|]. split; [reflexivity|].
  exact (composite_setter_drops_validate spec_validate quota_info
           (struct_init "QuotaInfo" [quota])
           (struct_init "AccountInfo" [account_id; quota_info])
           false eq_refl eq_refl eq_refl).
Defined.

(** ** What from_dict leaves in the slots *)

Lemma py_getitem_get obj k w : py_getitem obj k = Ok w -> py_get obj k = Ok w.
Proof.
  destruct obj; simpl; try discriminate.
  destruct (lookup k items); [auto | discriminate].
Qed.

Section DecodeResult.

Variable dv : primitive -> value -> result unit.
Variable tr : Transformer.
Variable nested : data_type -> value -> result value.

(** The lines of a field either pass (an optional composite field whose
    entry is missing or [None]) or set the slot to the decoding of the
    entry, which the setter has checked. *)
Lemma from_dict_field_result obj (f : Field data_type) c ss x' :
  from_dict_field dv tr nested obj f (VStruct c ss) = Ok x' ->
  (x' = VStruct c ss /\ field_optional f = true /\
   is_composite_type (field_data_type f) = true /\
   py_get obj (field_name f) = Ok VNone)
  \/
  (exists w v,
      py_get obj (field_name f) = Ok w /\
      match field_data_type f with
      | Primitive p => convert_from tr p w
      | _ => nested (field_data_type f) w
      end = Ok v /\
      setter_check dv (field_data_type f) v = Ok tt /\
      x' = VStruct c (store (field_name f) (v, true) ss)).
Proof.
  assert (Hset : forall v,
             run_on (setter dv f v) (VStruct c ss) = Ok x' ->
             setter_check dv (field_data_type f) v = Ok tt /\
             x' = VStruct c (store (field_name f) (v, true) ss)).
  { intros v E. unfold run_on, setter in E.
    destruct (setter_check dv (field_data_type f) v) as [[]|]; simpl in E;
      [|discriminate E].
    injection E as <-. auto. }
  unfold from_dict_field. cbv zeta. intros H.
  destruct (field_optional f) eqn:Eo; destruct (field_data_type f) eqn:Et;
    crunch H;
    try (left; injection H as <-;
         match goal with
         | E : is_None ?w = true |- _ => destruct w; try discriminate E
         end; auto; fail);
    right; destruct (Hset _ H) as [Hc ->];
    try rewrite Et in Hc;
    repeat match goal with
           | E : py_getitem _ _ = Ok _ |- _ => apply py_getitem_get in E
           end;
    repeat match goal with
           | E1 : py_get ?o ?k = Ok _, E2 : py_get ?o ?k = Ok _ |- _ =>
               rewrite E1 in E2; injection E2 as E2; subst
           end;
    try match goal with
        | E : py_get ?o ?k = Ok _ |- context [py_get ?o ?k] => rewrite E
        end;
    do 2 eexists; (split; [reflexivity|]); (split; [eassumption|]);
    (split; [exact Hc | reflexivity]).
Qed.

End DecodeResult.

Section DecodedSlots.

Variable dv : primitive -> value -> result unit.
Variable tr : Transformer.
Variable nested : data_type -> value -> result value.

(** The slots after the loop over the fields: the same keys; a slot is what
    it was or holds a checked value with its flag set; a flag that was set
    stays set; the slot of every required field is set. *)
Lemma from_dict_fields_slots obj (fs : list (Field data_type)) c ss x' :
  from_dict_fields dv tr nested obj fs (VStruct c ss) = Ok x' ->
  exists ss', x' = VStruct c ss' /\
    ((forall f, In f fs -> In (field_name f) (keys ss)) -> keys ss' = keys ss) /\
    (forall k s, lookup k ss' = Some s ->
       lookup k ss = Some s \/
       (snd s = true /\
        exists f, In f fs /\ field_name f = k /\
                  setter_check dv (field_data_type f) (fst s) = Ok tt)) /\
    (forall k v, lookup k ss = Some (v, true) ->
       exists v', lookup k ss' = Some (v', true)) /\
    (forall f, In f fs -> field_optional f = false ->
       exists v, lookup (field_name f) ss' = Some (v, true)).
Proof.
  revert ss. induction fs as [|g fs IH]; simpl; intros ss H.
  - injection H as <-. exists ss. split; [reflexivity|].
    split; [reflexivity|]. split; [auto|]. split; [eauto | contradiction].
  - destruct (from_dict_field dv tr nested obj g (VStruct c ss)) as [x1|] eqn:E;
      cbn [bind] in H; [|discriminate].
    destruct (from_dict_field_result _ _ _ _ _ _ _ _ E)
      as [[-> [Ho [Hc Hg]]] | [w [v [Hg [Hdec [Hchk ->]]]]]].
    + destruct (IH ss H) as [ss' [-> [Hk [Hp [Hm Hr]]]]].
      exists ss'. split; [reflexivity|]. split; [|split; [|split]].
      * intros Hin. apply Hk. intros f Hf. apply Hin. now right.
      * intros k s Hl. destruct (Hp k s Hl) as [Hl' | [Hs [f [Hf Hrest]]]];
          [auto|]. right. split; [exact Hs|]. exists f. split; [now right | exact Hrest].
      * exact Hm.
      * intros f [-> | Hf] Hreq; [congruence | auto].
    + destruct (IH _ H) as [ss' [-> [Hk [Hp [Hm Hr]]]]].
      exists ss'. split; [reflexivity|]. split; [|split; [|split]].
      * intros Hin.
        assert (Hks : keys (store (field_name g) (v, true) ss) = keys ss).
        { apply keys_store_In. apply Hin. now left. }
        rewrite <- Hks. apply Hk. intros f Hf. rewrite Hks. apply Hin. now right.
      * intros k s Hl. destruct (Hp k s Hl) as [Hl' | [Hs [f [Hf Hrest]]]].
        -- destruct (String.eqb_spec k (field_name g)) as [-> | Hne].
           ++ rewrite lookup_store_same in Hl'. injection Hl' as <-.
              right. split; [reflexivity|]. exists g. split; [now left|].
              split; [reflexivity | exact Hchk].
           ++ rewrite lookup_store_other in Hl' by assumption. now left.
        -- right. split; [exact Hs|]. exists f. split; [now right | exact Hrest].
      * intros k v0 Hl. destruct (String.eqb_spec k (field_name g)) as [-> | Hne].
        -- apply (Hm _ v). apply lookup_store_same.
        -- apply (Hm _ v0). now rewrite lookup_store_other.
      * intros f [-> | Hf] Hreq; [|auto].
        apply (Hm _ v). apply lookup_store_same.
Qed.

(** The slot of one field after the loop, when the names are distinct. *)
Lemma from_dict_fields_field obj (fs : list (Field data_type)) c ss x' f :
  from_dict_fields dv tr nested obj fs (VStruct c ss) = Ok x' ->
  NoDup (field_names fs) -> In f fs ->
  exists ss', x' = VStruct c ss' /\
    ((field_optional f = true /\
      is_composite_type (field_data_type f) = true /\
      py_get obj (field_name f) = Ok VNone /\
      lookup (field_name f) ss' = lookup (field_name f) ss)
     \/
     (exists w v,
         py_get obj (field_name f) = Ok w /\
         match field_data_type f with
         | Primitive p => convert_from tr p w
         | _ => nested (field_data_type f) w
         end = Ok v /\
         lookup (field_name f) ss' = Some (v, true))).
Proof.
  revert ss. induction fs as [|g fs IH]; simpl; intros ss H Hnd Hin;
    [contradiction|].
  inversion Hnd as [|? ? Hnot Hnd']; subst.
  destruct (from_dict_field dv tr nested obj g (VStruct c ss)) as [x1|] eqn:E;
    cbn [bind] in H; [|discriminate].
  destruct Hin as [-> | Hin].
  - destruct (from_dict_field_result _ _ _ _ _ _ _ _ E)
      as [[-> [Ho [Hc Hg]]] | [w [v [Hg [Hdec [Hchk ->]]]]]];
      destruct (@from_dict_fields_frame _ _ _ _ _ _ _ _ (field_name f) H Hnot)
        as [ss' [-> Hl]];
      exists ss'; (split; [reflexivity|]).
    + left. auto.
    + right. exists w, v. split; [exact Hg|]. split; [exact Hdec|].
      rewrite Hl. apply lookup_store_same.
  - destruct (@from_dict_field_writes _ _ _ _ _ _ _ _ E) as [ss1 [-> Hss1]].
    destruct (IH ss1 H Hnd' Hin) as [ss' [-> Hcases]].
    exists ss'. split; [reflexivity|].
    destruct Hcases as [[Ho [Hc [Hg Hl]]] | Hcase]; [|now right].
    left. split; [exact Ho|]. split; [exact Hc|]. split; [exact Hg|].
    rewrite Hl. destruct Hss1 as [-> | [v ->]]; [reflexivity|].
    apply lookup_store_other. intros E'. apply Hnot. rewrite <- E'.
    unfold field_names. now apply in_map.
Qed.

End DecodedSlots.

Lemma struct_from_dict_fields dv tr n fs obj x :
  from_dict dv tr (Struct n fs) obj = Ok x ->
  from_dict_fields dv tr (from_dict dv tr) obj fs (struct_init n fs) = Ok x.
Proof.
  rewrite from_dict_Struct. unfold struct_from_dict. intros H.
  destruct (py_iter obj) as [ks|]; cbn [bind] in H; [|discriminate H].
  destruct (check_keys (field_names fs) ks); cbn [bind] in H;
    [exact H | discriminate H].
Qed.



(** X6: when the field names are distinct, the slot of every field of the
    instance [from_dict] returns is set to the decoding of the field's entry
    [obj.get('f')] (by the transformer for a primitive field, by the
    [from_dict] of the field's class for a composite one), but for an
    optional composite field whose entry is missing or [None], whose slot
    is left unset. *)
Theorem from_dict_struct_slots :
  forall dv tr n fs obj x f,
    NoDup (field_names fs) ->
    from_dict dv tr (Struct n fs) obj = Ok x ->
    In f fs ->
    (field_optional f = true /\
     is_composite_type (field_data_type f) = true /\
     py_get obj (field_name f) = Ok VNone /\
     slot_of x (field_name f) = Ok (VNone, false))
    \/
    (exists w v,
        py_get obj (field_name f) = Ok w /\
        match field_data_type f with
        | Primitive p => convert_from tr p w
        | _ => from_dict dv tr (field_data_type f) w
        end = Ok v /\
        slot_of x (field_name f) = Ok (v, true)).
Proof.
  intros dv tr n fs obj x f Hnd H Hin. apply struct_from_dict_fields in H.
  unfold struct_init in H.
  destruct (from_dict_fields_field _ _ _ _ _ _ _ _ f H Hnd Hin)
    as [ss' [-> [[Ho [Hc [Hg Hl]]] | [w [v [Hg [Hdec Hl]]]]]]].
  - left. split; [exact Ho|]. split; [exact Hc|]. split; [exact Hg|].
    unfold slot_of. rewrite Hl, lookup_struct_init by assumption. reflexivity.
  - right. exists w, v. split; [exact Hg|]. split; [exact Hdec|].
    unfold slot_of. now rewrite Hl.
Qed.

Lemma from_dict_struct_slots_witness :
  NoDup (field_names [account_id; quota_info]) /\
  from_dict spec_validate spec_transformer AccountInfo
    (VDict [("account_id", VStr "xyz123")])
  = Ok (VStruct "AccountInfo"
          [("account_id", (VStr "xyz123", true)); ("quota_info", (VNone, false))]) /\
  In account_id [account_id; quota_info] /\
  ((field_optional account_id = true /\
    is_composite_type (field_data_type account_id) = true /\
    py_get (VDict [("account_id", VStr "xyz123")]) (field_name account_id)
    = Ok VNone /\
    slot_of (VStruct "AccountInfo"
               [("account_id", (VStr "xyz123", true));
                ("quota_info", (VNone, false))]) (field_name account_id)
    = Ok (VNone, false))
   \/
   (exists w v,
       py_get (VDict [("account_id", VStr "xyz123")]) (field_name account_id)
       = Ok w /\
       match field_data_type account_id with
       | Primitive p => convert_from spec_transformer p w
       | _ => from_dict spec_validate spec_transformer
                (field_data_type account_id) w
       end = Ok v /\
       slot_of (VStruct "AccountInfo"
                  [("account_id", (VStr "xyz123", true));
                   ("quota_info", (VNone, false))]) (field_name account_id)
       = Ok (v, true))).
Proof.
  assert (Hnd : NoDup (field_names [account_id; quota_info])).
  { repeat constructor; simpl; intuition discriminate. }
  assert (E : from_dict spec_validate spec_transformer AccountInfo
                (VDict [("account_id", VStr "xyz123")])
              = Ok (VStruct "AccountInfo"
                      [("account_id", (VStr "xyz123", true));
                       ("quota_info", (VNone, false))]))
    by reflexivity.
  assert (Hin : In account_id [account_id; quota_info]) by (now left).
  split; [exact Hnd|]. split; [exact E|]. split; [exact Hin|].
  exact (from_dict_struct_slots _ _ _ _ _ _ _ Hnd E Hin).
Defined.

(** *** A wire value that is not an object *)

(** X7: a struct with at least one field decodes wire objects only: every
    other wire value is refused; a struct without fields decodes the empty
    string and the empty list as it does the empty object. *)
Theorem from_dict_struct_wire_object :
  forall dv tr n,
    (forall fs f obj x,
        In f fs ->
        from_dict dv tr (Struct n fs) obj = Ok x ->
        is_dict obj = true) /\
    from_dict dv tr (Struct n []) (VDict []) = Ok (VStruct n []) /\
    from_dict dv tr (Struct n []) (VStr "") = Ok (VStruct n []) /\
    from_dict dv tr (Struct n []) (VList []) = Ok (VStruct n []).
Proof.
  intros dv tr n. split; [|repeat split; reflexivity].
  intros fs f obj x Hin H. apply struct_from_dict_fields in H.
  destruct fs as [|g fs]; [contradiction|]. simpl in H.
  destruct (from_dict_field dv tr (from_dict dv tr) obj g
              (struct_init n (g :: fs))) as [x1|] eqn:E; [|discriminate H].
  exact (@from_dict_field_dict _ _ _ _ _ _ _ E).
Qed.

Lemma from_dict_struct_wire_object_witness :
  In quota [quota] /\
  from_dict spec_validate spec_transformer (Struct "QuotaInfo" [quota])
    (VDict [("quota", VInt 5)])
  = Ok (VStruct "QuotaInfo" [("quota", (VInt 5, true))]) /\
  is_dict (VDict [("quota", VInt 5)]) = true.
Proof.
  assert (Hin : In quota [quota]) by (now left).
  assert (E : from_dict spec_validate spec_transformer (Struct "QuotaInfo" [quota])
                (VDict [("quota", VInt 5)])
              = Ok (VStruct "QuotaInfo" [("quota", (VInt 5, true))]))
    by reflexivity.
  split; [exact Hin|]. split; [exact E|].
  exact (proj1 (from_dict_struct_wire_object spec_validate spec_transformer
                  "QuotaInfo") _ _ _ _ Hin E).
Defined.

(** ** The object to_dict returns *)

Lemma keys_store_fresh {A} (k : string) (a : A) (d : list (string * A)) :
  ~ In k (keys d) -> keys (store k a d) = keys d ++ [k].
Proof.
  induction d as [|[k' a'] d IH]; simpl; intros Hnot; [reflexivity|].
  destruct (String.eqb_spec k k') as [-> | Hne]; [exfalso; auto|].
  simpl. f_equal. apply IH. tauto.
Qed.

Lemma NoDup_keys_store {A} (k : string) (a : A) (d : list (string * A)) :
  NoDup (keys d) -> NoDup (keys (store k a d)).
Proof.
  intros Hnd. destruct (in_dec string_dec k (keys d)) as [Hin | Hnot].
  - now rewrite keys_store_In.
  - rewrite keys_store_fresh by assumption.
    apply NoDup_app; [exact Hnd | repeat constructor; simpl; tauto |].
    intros x Hx [<- | []]. contradiction.
Qed.

Lemma NoDup_names_filter (p : Field data_type -> bool) fs :
  NoDup (field_names fs) -> NoDup (field_names (filter p fs)).
Proof.
  induction fs as [|f fs IH]; simpl; intros Hnd; [constructor|].
  inversion Hnd as [|? ? Hnot Hnd']; subst.
  destruct (p f); simpl; [|auto].
  constructor; [|auto].
  intros Hin. apply Hnot. unfold field_names in *.
  apply in_map_iff in Hin. destruct Hin as [g [Hg Hin]].
  apply filter_In in Hin. rewrite <- Hg. apply in_map. tauto.
Qed.

Lemma to_dict_optional_NoDup tr nested self fs d0 d :
  to_dict_optional tr nested self fs d0 = Ok d ->
  NoDup (keys d0) -> NoDup (keys d).
Proof.
  revert d0. induction fs as [|g fs IH]; simpl; intros d0 H Hnd.
  - now injection H as <-.
  - destruct (field_optional g); [|eauto].
    destruct (get_value self (field_name g)) as [v|]; cbn [bind] in H;
      [|discriminate].
    destruct (is_None v); [eauto|].
    destruct (to_dict_field tr nested self g) as [w|]; cbn [bind] in H;
      [|discriminate].
    eapply IH; [exact H|]. now apply NoDup_keys_store.
Qed.

(** X8: every key of the object [to_dict] returns for a struct instance is
    a field name, so that the unknown-key check of [from_dict] passes on
    it; when the field names are distinct no key occurs twice, and the
    entry under the key of a field is the wire form of the value stored for
    that field. *)
Theorem to_dict_struct_entries :
  forall tr n fs self w,
    to_dict tr (Struct n fs) self = Ok w ->
    exists d, w = VDict d /\
      check_keys (field_names fs) (map VStr (keys d)) = Ok tt /\
      (NoDup (field_names fs) ->
       NoDup (keys d) /\
       forall f e, In f fs -> lookup (field_name f) d = Some e ->
                   to_dict_field tr (to_dict tr) self f = Ok e).
Proof.
  intros tr n fs self w H. rewrite to_dict_Struct in H.
  destruct (isinstance self (Struct n fs)); [|discriminate].
  unfold struct_to_dict in H.
  destruct (to_dict_required tr (to_dict tr) self fs) as [d0|] eqn:Hreq;
    cbn [bind] in H; [|discriminate].
  destruct (to_dict_optional tr (to_dict tr) self fs d0) as [d|] eqn:Hopt;
    cbn [bind] in H; [|discriminate].
  injection H as <-. exists d. split; [reflexivity|].
  pose proof (@to_dict_required_keys _ _ _ _ _ Hreq) as Hk0.
  pose proof (fun k => @to_dict_optional_keys _ _ _ _ _ _ k Hopt) as Hkd.
  split.
  - apply check_keys_known. intros k Hk. apply Hkd in Hk.
    destruct Hk as [Hk | [f [v [Hin [_ [<- _]]]]]].
    + rewrite Hk0 in Hk. unfold field_names in *.
      apply in_map_iff in Hk. destruct Hk as [f [<- Hf]].
      apply filter_In in Hf. apply in_map. tauto.
    + unfold field_names. now apply in_map.
  - intros Hnd. split.
    + eapply to_dict_optional_NoDup; [exact Hopt|].
      rewrite Hk0. now apply NoDup_names_filter.
    + intros f e Hin Hl. destruct (field_optional f) eqn:Eo.
      * destruct (@to_dict_optional_lookup _ _ _ _ _ _ f Hopt Hnd Hin Eo)
          as [v [Hv Hcase]].
        destruct (is_None v).
        -- exfalso. rewrite Hcase in Hl.
           assert (Hk : In (field_name f) (keys d0))
             by (apply lookup_In_keys; eauto).
           rewrite Hk0 in Hk. unfold field_names in Hk.
           apply in_map_iff in Hk. destruct Hk as [g [Hname Hg]].
           apply filter_In in Hg. destruct Hg as [Hg Hgo].
           assert (g = f) by (eapply NoDup_field_names_inj; eassumption).
           subst g. rewrite Eo in Hgo. discriminate.
        -- destruct Hcase as [e' [He' Hl']]. congruence.
      * destruct (@to_dict_required_lookup _ _ _ _ _ Hreq Hnd f Hin Eo)
          as [e' [He' Hl']].
        rewrite (@to_dict_optional_frame _ _ _ _ _ _ (field_name f) Hopt) in Hl.
        -- congruence.
        -- intros g Hg Hog E.
           assert (g = f) by (eapply NoDup_field_names_inj; eassumption).
           subst g. congruence.
Qed.

Lemma to_dict_struct_entries_witness :
  let self := VStruct "AccountInfo"
                [("account_id", (VStr "xyz123", true));
                 ("quota_info", (VNone, false))] in
  to_dict spec_transformer AccountInfo self
  = Ok (VDict [("account_id", VStr "xyz123")]) /\
  NoDup (field_names [account_id; quota_info]) /\
  In account_id [account_id; quota_info] /\
  lookup (field_name account_id) [("account_id", VStr "xyz123")]
  = Some (VStr "xyz123") /\
  check_keys (field_names [account_id; quota_info])
    (map VStr (keys [("account_id", VStr "xyz123")])) = Ok tt /\
  NoDup (keys [("account_id", VStr "xyz123")]) /\
  to_dict_field spec_transformer (to_dict spec_transformer) self account_id
  = Ok (VStr "xyz123").
Proof.
  cbv zeta.
  assert (Hnd : NoDup (field_names [account_id; quota_info])).
  { repeat constructor; simpl; intuition discriminate. }
  assert (Hin : In account_id [account_id; quota_info]) by (now left).
  destruct (to_dict_struct_entries spec_transformer "AccountInfo"
              [account_id; quota_info]
              (VStruct "AccountInfo"
                 [("account_id", (VStr "xyz123", true));
                  ("quota_info", (VNone, false))])
              (VDict [("account_id", VStr "xyz123")]) eq_refl)
    as [d [Hd [Hck Hrest]]].
  injection Hd as <-. destruct (Hrest Hnd) as [Hndk Hent].
  split; [reflexivity|]. split; [exact Hnd|]. split; [exact Hin|].
  split; [reflexivity|]. split; [exact Hck|]. split; [exact Hndk|].
  exact (Hent account_id (VStr "xyz123") Hin eq_refl).
Defined.

Lemma to_dict_None tr (t : data_type) : to_dict tr t VNone = Raise AttributeError.
Proof. destruct t; reflexivity. Qed.

Lemma to_dict_required_raises tr nested self fs (f : Field data_type) e0 :
  In f fs -> field_optional f = false ->
  to_dict_field tr nested self f = Raise e0 ->
  exists e, to_dict_required tr nested self fs = Raise e.
Proof.
  induction fs as [|g fs IH]; simpl; intros Hin Ho Hf; [contradiction|].
  destruct Hin as [-> | Hin].
  - rewrite Ho, Hf. simpl. eauto.
  - destruct (field_optional g); [auto|].
    destruct (to_dict_field tr nested self g); simpl; [|eauto].
    destruct (IH Hin Ho Hf) as [e ->]. simpl. eauto.
Qed.

(** X9: [to_dict] raises on an instance in which a required field of a
    composite type holds [None] (its slot was never set): the field is not
    emitted as null. *)
Theorem to_dict_required_composite_None_raises :
  forall tr n fs self f h,
    In f fs ->
    field_optional f = false ->
    is_composite_type (field_data_type f) = true ->
    slot_of self (field_name f) = Ok (VNone, h) ->
    exists e, to_dict tr (Struct n fs) self = Raise e.
Proof.
  intros tr n fs self f h Hin Ho Hc Hs. rewrite to_dict_Struct.
  destruct (isinstance self (Struct n fs)); [|eauto].
  unfold struct_to_dict.
  destruct (to_dict_required_raises tr (to_dict tr) self fs f AttributeError
              Hin Ho) as [e ->]; [|simpl; eauto].
  unfold to_dict_field, get_value. rewrite Hs. cbn [bind fst].
  destruct (field_data_type f); [discriminate | |]; apply to_dict_None.
Qed.

Lemma to_dict_required_composite_None_raises_witness :
  let Holder := [mkField "info" QuotaInfo false None] in
  In (mkField "info" QuotaInfo false None) Holder /\
  slot_of (struct_init "Holder" Holder) "info" = Ok (VNone, false) /\
  exists e, to_dict spec_transformer (Struct "Holder" Holder)
              (struct_init "Holder" Holder) = Raise e.
Proof.
  cbv zeta.
  assert (Hin : In (mkField "info" QuotaInfo false None)
                   [mkField "info" QuotaInfo false None]) by (now left).
  split; [exact Hin|]. split; [reflexivity|].
  exact (to_dict_required_composite_None_raises spec_transformer "Holder"
           [mkField "info" QuotaInfo false None]
           (struct_init "Holder" [mkField "info" QuotaInfo false None])
           (mkField "info" QuotaInfo false None) false
           Hin eq_refl eq_refl eq_refl).
Defined.

(** ** Union instances *)



(** X11: what [to_dict] returns for a union instance is [None] (no field
    has the name of the tag; so for every instance with no tag), the name of
    the active tag when it is a symbol field, or an object with the one key
    of the active tag when it is a field with a payload. *)
Theorem union_to_dict_shape :
  forall tr n fs,
    (forall c tag ps w,
        to_dict tr (Union n fs) (VUnion c tag ps) = Ok w ->
        (w = VNone /\ forall f, In f fs -> tag <> Some (ufield_name f)) \/
        (exists g, tag = Some g /\
           ((w = VStr g /\ In (SymbolField _ g) fs) \/
            (exists t e, In (TagField g t) fs /\ w = VDict [(g, e)])))) /\
    (forall ps, to_dict tr (Union n fs) (VUnion n None ps) = Ok VNone).
Proof.
  intros tr n fs. split.
  - intros c tag ps w. rewrite to_dict_Union.
    destruct (isinstance (VUnion c tag ps) (Union n fs)); [|discriminate].
    generalize (to_dict tr). intros nested.
    induction fs as [|f fs IH]; simpl; intros H.
    + injection H as <-. left. split; [reflexivity | contradiction].
    + destruct tag as [g|]; simpl in H.
      * destruct (String.eqb_spec g (ufield_name f)) as [-> | Hne].
        -- right. exists (ufield_name f). split; [reflexivity|].
           destruct f as [m | m t]; simpl in *.
           ++ injection H as <-. left. auto.
           ++ right. exists t.
              rewrite String.eqb_refl in H. simpl in H.
              destruct t; [discriminate H | |];
                (destruct (lookup m ps); simpl in H; [|discriminate H]);
                (destruct (nested _ v); simpl in H; [|discriminate H]);
                injection H as <-; eauto.
        -- destruct (IH H) as [[-> Hall] | [g' [Hg' Hcase]]].
           ++ left. split; [reflexivity|].
              intros f' [<- | Hf']; [congruence | auto].
           ++ right. exists g'. split; [exact Hg'|].
              destruct Hcase as [[-> Hin] | [t [e [Hin ->]]]].
              ** left. split; [reflexivity | now right].
              ** right. exists t, e. split; [now right | reflexivity].
      * destruct (IH H) as [[-> Hall] | [g' [Hg' _]]]; [|discriminate].
        left. split; [reflexivity|]. intros f' _. discriminate.
  - intros ps. rewrite to_dict_Union. cbn [isinstance]. rewrite String.eqb_refl.
    generalize (to_dict tr). intros nested.
    induction fs as [|f fs IH]; simpl; [reflexivity | exact IH].
Qed.

Lemma union_to_dict_shape_witness :
  let u := VUnion "WriteConflictPolicy" (Some "overwrite")
             [("update_if_matching_parent_rev", VNone)] in
  to_dict spec_transformer WriteConflictPolicy u = Ok (VStr "overwrite") /\
  ((VStr "overwrite" = VNone /\
    forall f, In f WriteConflictPolicy_fields ->
              Some "overwrite" <> Some (ufield_name f)) \/
   (exists g, Some "overwrite" = Some g /\
      ((VStr "overwrite" = VStr g /\ In (SymbolField _ g) WriteConflictPolicy_fields) \/
       (exists t e, In (TagField g t) WriteConflictPolicy_fields /\
                    VStr "overwrite" = VDict [(g, e)])))).
Proof.
  cbv zeta. split; [reflexivity|].
  exact (proj1 (union_to_dict_shape spec_transformer "WriteConflictPolicy"
                  WriteConflictPolicy_fields)
               "WriteConflictPolicy" (Some "overwrite")
               [("update_if_matching_parent_rev", VNone)]
               (VStr "overwrite") eq_refl).
Defined.

(** ** Decoding a union *)

Lemma from_dict_struct_shape dv tr n fs obj x :
  from_dict dv tr (Struct n fs) obj = Ok x -> instance_of n fs x.
Proof.
  intros H. apply struct_from_dict_fields in H. unfold struct_init in H.
  destruct (from_dict_fields_slots _ _ _ _ _ _ _ _ H) as [ss' [-> [Hk _]]].
  exists ss'. split; [reflexivity|].
  assert (Hk0 : keys (map (fun f : Field data_type =>
                            (field_name f, (VNone, false))) fs)
                = field_names fs).
  { unfold keys, field_names. rewrite map_map. reflexivity. }
  rewrite <- Hk0. apply Hk. intros f Hf. rewrite Hk0.
  unfold field_names. now apply in_map.
Qed.

Lemma union_from_dict_fields_shape nested obj fs c tag ps u :
  union_from_dict_fields nested obj fs (VUnion c tag ps) = Ok u ->
  exists tag' ps', u = VUnion c tag' ps' /\
    (tag' = tag \/ exists f, In f fs /\ tag' = Some (ufield_name f)).
Proof.
  revert tag ps. induction fs as [|f fs IH]; simpl; intros tag ps H.
  - injection H as <-. eauto.
  - destruct (union_from_dict_field nested obj f (VUnion c tag ps)) as [u1|] eqn:E;
      cbn [bind] in H; [|discriminate].
    assert (H1 : exists tag1 ps1, u1 = VUnion c tag1 ps1 /\
                   (tag1 = tag \/ tag1 = Some (ufield_name f))).
    { unfold union_from_dict_field in E. destruct f as [m | m t].
      - destruct (eq_str obj m); simpl in E; injection E as <-; eauto.
      - crunch E; try (injection E as <-; eauto; fail).
        destruct t; [discriminate E | |]; crunch E;
          unfold run_on, union_setter in E;
          (destruct (isinstance _ _); [|discriminate E]);
          (destruct (validate_of _ _); simpl in E; [|discriminate E]);
          injection E as <-; eauto. }
    destruct H1 as [tag1 [ps1 [-> Ht1]]].
    destruct (IH _ _ H) as [tag' [ps' [-> Ht']]].
    exists tag', ps'. split; [reflexivity|].
    destruct Ht' as [-> | [f' [Hf' ->]]].
    + destruct Ht1 as [-> | ->]; [now left|].
      right. exists f. split; [now left | reflexivity].
    + right. exists f'. split; [now right | reflexivity].
Qed.

(** What the [from_dict] of a class returns is an instance of the class,
    and its [validate()] does not raise. *)
Lemma from_dict_isinstance dv tr t e y :
  from_dict dv tr t e = Ok y ->
  isinstance y t = true /\ exists b, validate_of t y = Ok b.
Proof.
  destruct t as [p | n fs | n fs]; [discriminate | |]; intros H.
  - pose proof (from_dict_struct_shape _ _ _ _ _ _ H) as Hinst.
    destruct Hinst as [slots [-> Hk]]. split.
    + simpl. apply String.eqb_refl.
    + simpl. rewrite map_result_flags; [simpl; eauto|].
      intros f Hf. apply filter_In in Hf.
      eapply slot_of_instance with (name := n) (fields := fs); [|tauto].
      exists slots. auto.
  - rewrite from_dict_Union in H. unfold union_from_dict in H.
    destruct (is_dict e && negb (Nat.eqb (dict_len e) 1)); [discriminate|].
    unfold union_init in H.
    destruct (union_from_dict_fields_shape _ _ _ _ _ _ _ H)
      as [tag' [ps' [-> _]]].
    split; [simpl; apply String.eqb_refl | simpl; eauto].
Qed.

Lemma union_from_dict_fields_not_dict nested obj fs c tag ps :
  is_dict obj = false ->
  exists tag',
    union_from_dict_fields nested obj fs (VUnion c tag ps)
    = Ok (VUnion c tag' ps).
Proof.
  intros Hd. revert tag. induction fs as [|f fs IH]; simpl; intros tag; [eauto|].
  destruct f as [m | m t]; simpl.
  - destruct (eq_str obj m); simpl; apply IH.
  - rewrite Hd. simpl. apply IH.
Qed.

(** X12: decoding the bare name of a symbol field selects that tag and
    nothing else, and encoding the instance gives the name back; decoding a
    one-key object whose key names a field with a composite payload decodes
    the entry with the [from_dict] of the payload's class, stores it and
    selects the tag. *)
Theorem union_from_dict_selects :
  forall dv tr n fs g,
    (In (SymbolField _ g) fs ->
     from_dict dv tr (Union n fs) (VStr g)
     = Ok (VUnion n (Some g) (payload_init fs))) /\
    (NoDup (map (@ufield_name data_type) fs) ->
     In (SymbolField _ g) fs ->
     to_dict tr (Union n fs) (VUnion n (Some g) (payload_init fs))
     = Ok (VStr g)) /\
    (forall t e y,
        NoDup (map (@ufield_name data_type) fs) ->
        In (TagField g t) fs ->
        is_composite_type t = true ->
        from_dict dv tr t e = Ok y ->
        from_dict dv tr (Union n fs) (VDict [(g, e)])
        = Ok (VUnion n (Some g) (store g y (payload_init fs)))).
Proof.
  intros dv tr n fs g. split; [|split].
  - intros Hin. rewrite from_dict_Union. unfold union_from_dict, union_init.
    cbn [is_dict andb].
    destruct (union_from_dict_fields_str (from_dict dv tr) g fs n None
                (payload_init fs)) as [tag' [E [_ Htag']]].
    now rewrite E, (Htag' Hin).
  - intros Hnd Hin. rewrite to_dict_Union. cbn [isinstance].
    rewrite String.eqb_refl.
    rewrite (@union_to_dict_at (to_dict tr) fs (SymbolField _ g) n g
               (payload_init fs) Hnd Hin eq_refl).
    simpl. now rewrite String.eqb_refl.
  - intros t e y Hnd Hin Hc Hdec.
    destruct (from_dict_isinstance _ _ _ _ _ Hdec) as [Hi Hv].
    rewrite from_dict_Union. unfold union_from_dict, union_init.
    cbn [is_dict dict_len length Nat.eqb negb andb].
    eapply union_from_dict_fields_dict; eassumption.
Qed.

Lemma union_from_dict_selects_witness :
  In (SymbolField _ "reject") WriteConflictPolicy_fields /\
  NoDup (map (@ufield_name data_type) WriteConflictPolicy_fields) /\
  In (TagField "update_if_matching_parent_rev" UpdateParentRev)
     WriteConflictPolicy_fields /\
  from_dict spec_validate spec_transformer UpdateParentRev
    (VDict [("parent_rev", VStr "xyz123")])
  = Ok (VStruct "UpdateParentRev" [("parent_rev", (VStr "xyz123", true))]) /\
  from_dict spec_validate spec_transformer WriteConflictPolicy (VStr "reject")
  = Ok (VUnion "WriteConflictPolicy" (Some "reject")
          (payload_init WriteConflictPolicy_fields)) /\
  to_dict spec_transformer WriteConflictPolicy
    (VUnion "WriteConflictPolicy" (Some "reject")
       (payload_init WriteConflictPolicy_fields))
  = Ok (VStr "reject") /\
  from_dict spec_validate spec_transformer WriteConflictPolicy
    (VDict [("update_if_matching_parent_rev",
             VDict [("parent_rev", VStr "xyz123")])])
  = Ok (VUnion "WriteConflictPolicy" (Some "update_if_matching_parent_rev")
          (store "update_if_matching_parent_rev"
             (VStruct "UpdateParentRev" [("parent_rev", (VStr "xyz123", true))])
             (payload_init WriteConflictPolicy_fields))).
Proof.
  assert (Hs : In (SymbolField _ "reject") WriteConflictPolicy_fields)
    by (now left).
  assert (Hnd : NoDup (map (@ufield_name data_type) WriteConflictPolicy_fields)).
  { repeat constructor; simpl; intuition discriminate. }
  assert (Ht : In (TagField "update_if_matching_parent_rev" UpdateParentRev)
                  WriteConflictPolicy_fields)
    by (right; right; now left).
  assert (E : from_dict spec_validate spec_transformer UpdateParentRev
                (VDict [("parent_rev", VStr "xyz123")])
              = Ok (VStruct "UpdateParentRev"
                      [("parent_rev", (VStr "xyz123", true))]))
    by reflexivity.
  split; [exact Hs|]. split; [exact Hnd|]. split; [exact Ht|].
  split; [exact E|]. split; [|split].
  - exact (proj1 (union_from_dict_selects spec_validate spec_transformer
                    "WriteConflictPolicy" WriteConflictPolicy_fields "reject")
                 Hs).
  - exact (proj1 (proj2 (union_from_dict_selects spec_validate spec_transformer
                           "WriteConflictPolicy" WriteConflictPolicy_fields
                           "reject")) Hnd Hs).
  - exact (proj2 (proj2 (union_from_dict_selects spec_validate spec_transformer
                           "WriteConflictPolicy" WriteConflictPolicy_fields
                           "update_if_matching_parent_rev"))
                 UpdateParentRev _ _ Hnd Ht eq_refl E).
Defined.

(** X13: a wire object that does not have exactly one key is refused; a
    wire value that is not an object is never refused, and leaves the
    payloads as [__init__] made them; and the tag of an instance that
    [from_dict] returns, when it has one, is the name of a field of the
    union. *)
Theorem union_from_dict_outcome :
  forall dv tr n fs,
    (forall d, length d <> 1 ->
       from_dict dv tr (Union n fs) (VDict d) = Raise (UnionKeyCount (length d))) /\
    (forall obj, is_dict obj = false ->
       exists tag,
         from_dict dv tr (Union n fs) obj = Ok (VUnion n tag (payload_init fs))) /\
    (forall obj u,
        from_dict dv tr (Union n fs) obj = Ok u ->
        exists tag ps, u = VUnion n tag ps /\
          forall g, tag = Some g -> In g (map (@ufield_name data_type) fs)).
Proof.
  intros dv tr n fs. split; [|split].
  - intros d Hd. now apply union_from_dict_key_count.
  - intros obj Hd. rewrite from_dict_Union. unfold union_from_dict, union_init.
    rewrite Hd. cbn [andb]. now apply union_from_dict_fields_not_dict.
  - intros obj u H. rewrite from_dict_Union in H. unfold union_from_dict in H.
    destruct (is_dict obj && negb (Nat.eqb (dict_len obj) 1)); [discriminate|].
    unfold union_init in H.
    destruct (union_from_dict_fields_shape _ _ _ _ _ _ _ H)
      as [tag' [ps' [-> Ht]]].
    exists tag', ps'. split; [reflexivity|].
    intros g ->. destruct Ht as [Ht | [f [Hf Ht]]]; [discriminate|].
    injection Ht as ->. now apply in_map.
Qed.

Lemma union_from_dict_outcome_witness :
  length [("reject", VNone); ("overwrite", VNone)] <> 1 /\
  from_dict spec_validate spec_transformer WriteConflictPolicy
    (VDict [("reject", VNone); ("overwrite", VNone)])
  = Raise (UnionKeyCount 2) /\
  is_dict (VInt 3) = false /\
  (exists tag,
      from_dict spec_validate spec_transformer WriteConflictPolicy (VInt 3)
      = Ok (VUnion "WriteConflictPolicy" tag
              (payload_init WriteConflictPolicy_fields))) /\
  from_dict spec_validate spec_transformer WriteConflictPolicy (VStr "overwrite")
  = Ok (VUnion "WriteConflictPolicy" (Some "overwrite")
          [("update_if_matching_parent_rev", VNone)]) /\
  In "overwrite" (map (@ufield_name data_type) WriteConflictPolicy_fields).
Proof.
  destruct (union_from_dict_outcome spec_validate spec_transformer
              "WriteConflictPolicy" WriteConflictPolicy_fields)
    as [H1 [H2 H3]].
  assert (Hlen : length [("reject", VNone); ("overwrite", VNone)] <> 1)
    by discriminate.
  split; [exact Hlen|]. split; [exact (H1 _ Hlen)|].
  split; [reflexivity|]. split; [exact (H2 (VInt 3) eq_refl)|].
  split; [reflexivity|].
  destruct (H3 (VStr "overwrite") _ eq_refl) as [tag [ps [E Hg]]].
  injection E as <- <-. exact (Hg "overwrite" eq_refl).
Defined.

(** ** Reading a field *)

(** X14: the getter of a field returns the stored value when the slot is
    set; when it is not set, it raises the missing-required-field error
    for a required field and returns [None] for an optional one, with or
    without a declared default; it never changes the instance. *)
Theorem getter_reads :
  forall (f : Field data_type) self v h,
    slot_of self (field_name f) = Ok (v, h) ->
    getter f self
    = (if h then Ok v
       else if field_optional f then Ok VNone
            else Raise (MissingRequiredField (field_name f)),
       self).
Proof.
  intros f self v h Hs. destruct h.
  - now apply getter_set.
  - now apply getter_unset with (v := v).
Qed.

Lemma getter_reads_witness :
  slot_of (struct_init "QuotaInfo" [quota]) (field_name quota) = Ok (VNone, false) /\
  getter quota (struct_init "QuotaInfo" [quota])
  = (Raise (MissingRequiredField "quota"), struct_init "QuotaInfo" [quota]) /\
  slot_of (struct_init "Paging" [limit]) (field_name limit) = Ok (VNone, false) /\
  getter limit (struct_init "Paging" [limit])
  = (Ok VNone, struct_init "Paging" [limit]).
Proof.
  split; [reflexivity|]. split.
  - exact (getter_reads quota (struct_init "QuotaInfo" [quota]) VNone false
             eq_refl).
  - split; [reflexivity|].
    exact (getter_reads limit (struct_init "Paging" [limit]) VNone false eq_refl).
Defined.
